(** * Partition health index and partition health cache

    A shallow embedding of
    [js_modules/dagit/packages/core/src/assets/usePartitionHealthData.tsx]:
    the range decoder [addIndexes], the index built by
    [buildPartitionHealthData] with its two queries [stateForKey] and
    [stateForSingleDimension], and the hook [usePartitionHealthData] seen as
    a transition system over its React state.

    JavaScript numbers that hold array positions are integers of [Z];
    [undefined] is [None]; an exception is the [Throw] case of [Js.outcome]. *)

From Stdlib Require Import List ZArith Ascii String Bool Lia.
Import ListNotations.
Local Open Scope string_scope.
Local Open Scope Z_scope.

Local Set Warnings "-register-all".

(** ** Exceptions *)

Module Js.

(** What a call can raise: the [TypeError] of reading a property of
    [undefined], or an [Error] built with a message. *)
Inductive exn : Type :=
| TypeError
| Error (message : string).

Inductive outcome (A : Type) : Type :=
| Ok (a : A)
| Throw (e : exn).
Arguments Ok {A} a.
Arguments Throw {A} e.

Definition bind {A B : Type} (c : outcome A) (k : A -> outcome B) : outcome B :=
  match c with
  | Ok a => k a
  | Throw e => Throw e
  end.

(** [Array.prototype.map] with a callback that may raise: elements are
    visited left to right and the first exception aborts the loop. *)
Fixpoint mapM {A B : Type} (f : A -> outcome B) (l : list A) : outcome (list B) :=
  match l with
  | [] => Ok []
  | x :: l' =>
      bind (f x) (fun y => bind (mapM f l') (fun ys => Ok (y :: ys)))
  end.

(** [map] whose callback also receives the position. *)
Fixpoint mapiM_from {A B : Type} (f : nat -> A -> outcome B) (i : nat)
  (l : list A) : outcome (list B) :=
  match l with
  | [] => Ok []
  | x :: l' =>
      bind (f i x) (fun y => bind (mapiM_from f (S i) l') (fun ys => Ok (y :: ys)))
  end.

Definition mapiM {A B : Type} (f : nat -> A -> outcome B) (l : list A) :=
  mapiM_from f 0 l.

(** [Array.prototype.filter] with a predicate that may raise. *)
Fixpoint filterM {A : Type} (p : A -> outcome bool) (l : list A) : outcome (list A) :=
  match l with
  | [] => Ok []
  | x :: l' =>
      bind (p x) (fun b =>
      bind (filterM p l') (fun xs => Ok (if b then x :: xs else xs)))
  end.

(** [xs[i]]: out of range reads [undefined]. *)
Definition at_ {A : Type} (l : list A) (i : nat) : option A := nth_error l i.

(** Reading a property of [xs[i]]: [undefined.p] raises. *)
Definition prop_of {A : Type} (l : list A) (i : nat) : outcome A :=
  match at_ l i with
  | Some a => Ok a
  | None => Throw TypeError
  end.

(** [xs.indexOf(k)] on an array of strings: first position, or [-1]. *)
Fixpoint indexOf_from (l : list string) (k : string) (i : Z) : Z :=
  match l with
  | [] => -1
  | x :: l' => if String.eqb x k then i else indexOf_from l' k (i + 1)
  end.

Definition indexOf (l : list string) (k : string) : Z := indexOf_from l k 0.

(** [a <= b] and [a >= b] where [b] may be [undefined]: a comparison
    with [undefined] is false. *)
Definition le (a : Z) (b : option Z) : bool :=
  match b with Some b => a <=? b | None => false end.
Definition ge (a : Z) (b : option Z) : bool :=
  match b with Some b => b <=? a | None => false end.

End Js.

Import Js.

Notation "x <- c ;; k" := (Js.bind c (fun x => k))
  (at level 61, c at next level, right associativity).

(** ** Data model *)

(** Modelled from the spec: the enum [PartitionState] is declared in
    [../partitions/PartitionStatus], which is not part of the sources at
    hand.  The three members used by this file are kept; they are truthy
    values, which the idiom [d0Range?.value || PartitionState.MISSING]
    presupposes. *)
Inductive PartitionState : Type :=
| MISSING
| SUCCESS
| SUCCESS_MISSING.

Definition PartitionState_eqb (a b : PartitionState) : bool :=
  match a, b with
  | MISSING, MISSING | SUCCESS, SUCCESS | SUCCESS_MISSING, SUCCESS_MISSING => true
  | _, _ => false
  end.

Record AssetKey : Type := { path : list string }.

Record PartitionHealthDimension : Type := {
  name : string;
  partitionKeys : list string
}.

(** The wire payload ([PartitionHealthMaterializedPartitionsFragment]). *)
Record MaterializedPartitionRange1D : Type := {
  r_start : string;
  r_end : string
}.

Record MaterializedPartitionRange2D : Type := {
  primaryDimStart : string;
  primaryDimEnd : string;
  secondaryDimRanges : list MaterializedPartitionRange1D
}.

Inductive MaterializedPartitions : Type :=
| MaterializedPartitions1D (ranges : list MaterializedPartitionRange1D)
| MaterializedPartitions2D (ranges : list MaterializedPartitionRange2D).

(** [data.assetNodeOrError]. *)
Inductive AssetNodeOrError : Type :=
| AssetNode (partitionKeysByDimension : list PartitionHealthDimension)
            (materializedPartitions : MaterializedPartitions)
| AssetNotFoundError.

(** [type Range]: both ends carry the boundary key and its position. *)
Record Bound : Type := { key : string; idx : Z }.

Inductive Range : Type := mkRange {
  start : Bound;
  end_ : Bound;
  value : PartitionState;
  subranges : option (list Range)
}.

(** The test [r.start.idx <= i && r.end.idx >= i] used by every search. *)
Definition contains (i : option Z) (r : Range) : bool :=
  Js.le (idx (start r)) i && Js.ge (idx (end_ r)) i.

(** ** Range decoder *)

Section Decoder.

Variable dimensions : list PartitionHealthDimension.

Definition bound_in (d : nat) (k : string) : outcome Bound :=
  dim <- prop_of dimensions d ;;
  Ok {| key := k; idx := indexOf (partitionKeys dim) k |}.

Definition decode1D (d : nat) (range : MaterializedPartitionRange1D)
  : outcome Range :=
  s <- bound_in d (r_start range) ;;
  e <- bound_in d (r_end range) ;;
  Ok {| start := s; end_ := e; value := SUCCESS; subranges := None |}.

(** The conditional of lines 188-192; [dimensions[1]] is read only when
    the first two conjuncts hold. *)
Definition classify (subs : list Range) : outcome PartitionState :=
  match subs with
  | [s0] =>
      if idx (start s0) =? 0 then
        dim <- prop_of dimensions 1 ;;
        Ok (if idx (end_ s0) =? Z.of_nat (List.length (partitionKeys dim)) - 1
            then SUCCESS else SUCCESS_MISSING)
      else Ok SUCCESS_MISSING
  | _ => Ok SUCCESS_MISSING
  end.

Definition decode2D (range : MaterializedPartitionRange2D) : outcome Range :=
  subs <- mapM (decode1D 1) (secondaryDimRanges range) ;;
  v <- classify subs ;;
  s <- bound_in 0 (primaryDimStart range) ;;
  e <- bound_in 0 (primaryDimEnd range) ;;
  Ok {| start := s; end_ := e; value := v; subranges := Some subs |}.

Definition addIndexes (materializedPartitions : MaterializedPartitions)
  : outcome (list Range) :=
  match materializedPartitions with
  | MaterializedPartitions1D ranges => mapM (decode1D 0) ranges
  | MaterializedPartitions2D ranges => mapM decode2D ranges
  end.

End Decoder.

(** ** The index *)

(** What [buildPartitionHealthData] returns.  [assetKey] and [dimensions]
    are the fields of the result object; the three [env_] fields are the
    constants [dimensions], [ranges] and [isRangeDataInverted] that the two
    closures [stateForKey] and [stateForSingleDimension] capture.  Nothing
    assigns to them after construction. *)
Record PartitionHealthData : Type := {
  assetKey : AssetKey;
  dimensions : list PartitionHealthDimension;
  env_dimensions : list PartitionHealthDimension;
  env_ranges : list Range;
  env_isRangeDataInverted : bool
}.

Section Build.

(** [isTimeseriesDimension] is imported from [./MultipartitioningSupport],
    which is not part of the sources at hand: it is a parameter. *)
Variable isTimeseriesDimension : PartitionHealthDimension -> bool.

Definition dims_of (data : AssetNodeOrError) : list PartitionHealthDimension :=
  match data with
  | AssetNode partitionKeysByDimension _ => partitionKeysByDimension
  | AssetNotFoundError => []
  end.

Definition payload_of (data : AssetNodeOrError) : MaterializedPartitions :=
  match data with
  | AssetNode _ materializedPartitions => materializedPartitions
  | AssetNotFoundError => MaterializedPartitions1D []
  end.

Definition isRangeDataInverted (__dims : list PartitionHealthDimension) : bool :=
  match __dims with
  | [_; d1] => isTimeseriesDimension d1
  | _ => false
  end.

Definition range_dimensions (__dims : list PartitionHealthDimension)
  : list PartitionHealthDimension :=
  match __dims with
  | [d0; d1] => if isTimeseriesDimension d1 then [d1; d0] else __dims
  | _ => __dims
  end.

Definition buildPartitionHealthData (data : AssetNodeOrError) (loadKey : AssetKey)
  : outcome PartitionHealthData :=
  let __dims := dims_of data in
  let inverted := isRangeDataInverted __dims in
  let dimensions := range_dimensions __dims in
  ranges <- addIndexes dimensions (payload_of data) ;;
  Ok {| assetKey := loadKey;
        dimensions := __dims;
        env_dimensions := dimensions;
        env_ranges := ranges;
        env_isRangeDataInverted := inverted |}.

End Build.

Section Queries.

Variable h : PartitionHealthData.

(** Lines 75-88. *)
Definition stateForKeyRangeOrdering (dimensionKeys : list string)
  : outcome PartitionState :=
  dIndexes <- mapiM (fun i k =>
                dim <- prop_of (env_dimensions h) i ;;
                Ok (indexOf (partitionKeys dim) k)) dimensionKeys ;;
  match find (contains (at_ dIndexes 0)) (env_ranges h) with
  | None => Ok MISSING
  | Some d0Range =>
      match subranges d0Range with
      | None => Ok SUCCESS
      | Some subs =>
          match find (contains (at_ dIndexes 1)) subs with
          | Some _ => Ok SUCCESS
          | None => Ok MISSING
          end
      end
  end.

(** Lines 71-73.  [reverse] works in place on the caller's array; the
    queries below never look at that array again. *)
Definition stateForKey (dimensionKeys : list string) : outcome PartitionState :=
  stateForKeyRangeOrdering
    (if env_isRangeDataInverted h then rev dimensionKeys else dimensionKeys).

(** [mergedStates] is imported from [./MultipartitioningSupport], which
    is not part of the sources at hand: it is a parameter. *)
Variable mergedStates : list PartitionState -> PartitionState.

(** The predicate of the [filter] on lines 118-120: [r.subranges!]
    is [undefined] for a range decoded from a 1D payload. *)
Definition hasSubrangeWith (d1Idx : Z) (r : Range) : outcome bool :=
  match subranges r with
  | None => Throw TypeError
  | Some subs => Ok (existsb (contains (Some d1Idx)) subs)
  end.

Definition thirdDimension : exn :=
  Error "stateForSingleDimension asked for third dimension".

(** Lines 90-136.  [otherDimensionSelectedKeys] is [None] when the caller
    leaves the argument out; an array, also an empty one, is truthy. *)
Definition stateForSingleDimension (dimensionIdx : Z) (dimensionKey : string)
  (otherDimensionSelectedKeys : option (list string)) : outcome PartitionState :=
  let dimensionIdx :=
    if env_isRangeDataInverted h then 1 - dimensionIdx else dimensionIdx in
  if (dimensionIdx =? 0) && (List.length (env_dimensions h) =? 1)%nat then
    stateForKeyRangeOrdering [dimensionKey]
  else if dimensionIdx =? 0 then
    match otherDimensionSelectedKeys with
    | None =>
        dim0 <- prop_of (env_dimensions h) 0 ;;
        let d0Idx := indexOf (partitionKeys dim0) dimensionKey in
        match find (contains (Some d0Idx)) (env_ranges h) with
        | Some d0Range => Ok (value d0Range)
        | None => Ok MISSING
        end
    | Some others =>
        states <- mapM (fun k => stateForKeyRangeOrdering [dimensionKey; k]) others ;;
        Ok (mergedStates states)
    end
  else if dimensionIdx =? 1 then
    d0Idxs <- match otherDimensionSelectedKeys with
              | None => Ok None
              | Some others =>
                  idxs <- mapM (fun k =>
                          dim0 <- prop_of (env_dimensions h) 0 ;;
                          Ok (indexOf (partitionKeys dim0) k)) others ;;
                  Ok (Some idxs)
              end ;;
    dim1 <- prop_of (env_dimensions h) 1 ;;
    let d1Idx := indexOf (partitionKeys dim1) dimensionKey in
    d0RangesContainingSubrangeWithD1Idx <-
      filterM (hasSubrangeWith d1Idx) (env_ranges h) ;;
    let all :=
      match d0Idxs with
      | None =>
          (List.length d0RangesContainingSubrangeWithD1Idx
           =? List.length (env_ranges h))%nat
      | Some idxs =>
          forallb (fun i =>
            existsb (contains (Some i)) d0RangesContainingSubrangeWithD1Idx) idxs
      end in
    if all then Ok SUCCESS
    else if (0 <? List.length d0RangesContainingSubrangeWithD1Idx)%nat
         then Ok SUCCESS_MISSING
    else Ok MISSING
  else Throw thirdDimension.

End Queries.

(** ** The hook [usePartitionHealthData] *)

(** Structural equality of asset keys.  The hook compares keys in three
    ways: [JSON.stringify(r.assetKey) === k], [isEqual(r.assetKey, loadKey)]
    and [assetKeyJSONs.includes(JSON.stringify(r.assetKey))].  On objects
    of type [AssetKey], whose only field is the array [path], the three
    agree with equality of the paths, and [JSON.parse] of a serialised key
    is a key with the same path; the model keeps a key as its own
    serialisation. *)
Fixpoint path_eqb (p q : list string) : bool :=
  match p, q with
  | [], [] => true
  | x :: p', y :: q' => String.eqb x y && path_eqb p' q'
  | _, _ => false
  end.

Definition sameKey (a b : AssetKey) : bool := path_eqb (path a) (path b).

(** [PartitionHealthData & {fetchedAt: string}]. *)
Record Entry : Type := {
  loaded : PartitionHealthData;
  fetchedAt : string
}.

(** A query in flight: what the closure [run] has captured. *)
Record Fetch : Type := {
  loadKey : AssetKey;
  hint : string
}.

(** The state kept for one mounted hook between renders: the [useState]
    cell [result], the dependency array of the first [useMemo] as the last
    render left it ([client], which [useApolloClient] returns unchanged, is
    left out), and the queries awaiting their response. *)
Record HookState : Type := {
  result : list Entry;
  deps : option (option AssetKey * string);
  pending : list Fetch
}.

Definition init : HookState := {| result := []; deps := None; pending := [] |}.

Definition matches (k : AssetKey) (assetLastMaterializedAt : string) (r : Entry)
  : bool :=
  sameKey (assetKey (loaded r)) k && String.eqb (fetchedAt r) assetLastMaterializedAt.

(** Lines 219-224. *)
Definition missingKeyJSON (result : list Entry) (assetKeys : list AssetKey)
  (assetLastMaterializedAt : string) : option AssetKey :=
  find (fun k => negb (existsb (matches k assetLastMaterializedAt) result)) assetKeys.

Definition opt_key_eqb (a b : option AssetKey) : bool :=
  match a, b with
  | None, None => true
  | Some x, Some y => sameKey x y
  | _, _ => false
  end.

(** Does React run the callback of the first [useMemo] again? *)
Definition deps_changed (old : option (option AssetKey * string))
  (missing : option AssetKey) (assetLastMaterializedAt : string) : bool :=
  match old with
  | None => true
  | Some (m, a) =>
      negb (opt_key_eqb m missing && String.eqb a assetLastMaterializedAt)
  end.

(** Lines 251-254. *)
Definition visible (result : list Entry) (assetKeys : list AssetKey) : list Entry :=
  filter (fun r => existsb (sameKey (assetKey (loaded r))) assetKeys) result.

(** One evaluation of the hook body: the new state and the returned list. *)
Definition render (assetKeys : list AssetKey) (assetLastMaterializedAt : string)
  (s : HookState) : HookState * list Entry :=
  let missing := missingKeyJSON (result s) assetKeys assetLastMaterializedAt in
  let issued :=
    if deps_changed (deps s) missing assetLastMaterializedAt then
      match missing with
      | Some k => [{| loadKey := k; hint := assetLastMaterializedAt |}]
      | None => []
      end
    else [] in
  ({| result := result s;
      deps := Some (missing, assetLastMaterializedAt);
      pending := pending s ++ issued |},
   visible (result s) assetKeys).

Fixpoint drop_nth {A : Type} (i : nat) (l : list A) : list A :=
  match i, l with
  | _, [] => []
  | O, _ :: l' => l'
  | S i', x :: l' => x :: drop_nth i' l'
  end.

Section Hook.

Variable isTimeseriesDimension : PartitionHealthDimension -> bool.

(** Lines 242-246: the updater passed to [setResult]. *)
Definition upsert (l : PartitionHealthData) (f : Fetch) (result : list Entry)
  : list Entry :=
  filter (fun r => negb (sameKey (assetKey (loaded r)) (loadKey f))) result
  ++ [{| loaded := l; fetchedAt := hint f |}].

(** The [i]-th pending query answers [data].  When
    [buildPartitionHealthData] raises, the promise of [run] is rejected and
    [setResult] is not reached. *)
Definition resolve (i : nat) (data : AssetNodeOrError) (s : HookState) : HookState :=
  match nth_error (pending s) i with
  | None => s
  | Some f =>
      match buildPartitionHealthData isTimeseriesDimension data (loadKey f) with
      | Ok l =>
          {| result := upsert l f (result s);
             deps := deps s;
             pending := drop_nth i (pending s) |}
      | Throw _ =>
          {| result := result s; deps := deps s; pending := drop_nth i (pending s) |}
      end
  end.

(** The [i]-th pending query fails: [client.query] rejects. *)
Definition reject (i : nat) (s : HookState) : HookState :=
  {| result := result s; deps := deps s; pending := drop_nth i (pending s) |}.

Inductive step : HookState -> HookState -> Prop :=
| step_render (assetKeys : list AssetKey) (assetLastMaterializedAt : string) s :
    step s (fst (render assetKeys assetLastMaterializedAt s))
| step_resolve i data s :
    (i < List.length (pending s))%nat -> step s (resolve i data s)
| step_reject i s :
    (i < List.length (pending s))%nat -> step s (reject i s).

Inductive reachable : HookState -> Prop :=
| reachable_init : reachable init
| reachable_step s s' : reachable s -> step s s' -> reachable s'.

End Hook.

(** ** Vocabulary of the statements *)

(** Primary ranges of which no two share a position. *)
Definition disjoint (r r' : Range) : bool :=
  (idx (end_ r) <? idx (start r')) || (idx (end_ r') <? idx (start r)).

Fixpoint nonOverlapping (rs : list Range) : bool :=
  match rs with
  | [] => true
  | r :: rs' => forallb (disjoint r) rs' && nonOverlapping rs'
  end.

(** The primary range [r] has a secondary range over position [i]. *)
Definition coversSecondary (i : Z) (r : Range) : bool :=
  match subranges r with
  | Some subs => existsb (contains (Some i)) subs
  | None => false
  end.

(** The primary range [r] vouches for the pair of positions [(p, s)]: it
    lies over [p] and either has no secondary list or has a secondary
    range over [s]. *)
Definition vouches (p s : Z) (r : Range) : Prop :=
  contains (Some p) r = true /\
  (subranges r = None \/
   exists subs sr, subranges r = Some subs /\ In sr subs /\
                   contains (Some s) sr = true).

(** The secondary range [sub] alone spans dimension [d1]. *)
Definition spansAll (d1 : PartitionHealthDimension)
  (sub : MaterializedPartitionRange1D) : Prop :=
  indexOf (partitionKeys d1) (r_start sub) = 0 /\
  indexOf (partitionKeys d1) (r_end sub) =
    Z.of_nat (List.length (partitionKeys d1)) - 1.

Definition firstKey (d : PartitionHealthDimension) : string :=
  hd "" (partitionKeys d).

Definition lastKey (d : PartitionHealthDimension) : string :=
  last (partitionKeys d) "".

(** The payload that declares the whole key space of [dims], given in the
    order of the wire, as one full range. *)
Definition fullPayload (dims : list PartitionHealthDimension)
  : MaterializedPartitions :=
  match dims with
  | [d0; d1] =>
      MaterializedPartitions2D
        [{| primaryDimStart := firstKey d0;
            primaryDimEnd := lastKey d0;
            secondaryDimRanges :=
              [{| r_start := firstKey d1; r_end := lastKey d1 |}] |}]
  | d0 :: _ =>
      MaterializedPartitions1D [{| r_start := firstKey d0; r_end := lastKey d0 |}]
  | [] => MaterializedPartitions1D []
  end.

(** A dimension of the data model: at least one key, no key twice. *)
Definition wellFormed (d : PartitionHealthDimension) : Prop :=
  partitionKeys d <> [] /\ NoDup (partitionKeys d).

(** One key per dimension, each taken from its dimension. *)
Definition validKeys (dims : list PartitionHealthDimension) (ks : list string)
  : Prop :=
  Forall2 (fun d k => In k (partitionKeys d)) dims ks.

(** A string that begins with a date [dddd-dd-dd]. *)
Definition isDigit (c : Ascii.ascii) : bool :=
  (48 <=? Ascii.nat_of_ascii c)%nat && (Ascii.nat_of_ascii c <=? 57)%nat.

Definition isDash (c : Ascii.ascii) : bool := Ascii.eqb c "-"%char.

Definition dateLike (s : string) : bool :=
  match s with
  | String y1 (String y2 (String y3 (String y4 (String s1
      (String m1 (String m2 (String s2 (String d1 (String d2 _))))))))) =>
      isDigit y1 && isDigit y2 && isDigit y3 && isDigit y4 && isDash s1 &&
      isDigit m1 && isDigit m2 && isDash s2 && isDigit d1 && isDigit d2
  | _ => false
  end.

(** Modelled from the spec: [isTimeseriesDimension] is not part of the
    sources at hand and the spec only calls such a dimension time-like.
    The development is parametric in it; this instance, used to build
    concrete indexes, takes a dimension for time-like when its first key
    begins with a date. *)
Definition firstKeyDateLike (d : PartitionHealthDimension) : bool :=
  dateLike (firstKey d).

(** Modelled from the spec: [mergedStates] is not part of the sources at
    hand; the spec gives its rule as all SUCCESS, SUCCESS; all MISSING,
    MISSING; mixed, SUCCESS_MISSING. *)
Definition mergedStatesRule (states : list PartitionState) : PartitionState :=
  if forallb (PartitionState_eqb SUCCESS) states then SUCCESS
  else if forallb (PartitionState_eqb MISSING) states then MISSING
  else SUCCESS_MISSING.

(** Sample data: a static dimension, a daily one, two asset keys. *)
Definition region : PartitionHealthDimension :=
  {| name := "region"; partitionKeys := ["eu"; "us"] |}.

Definition date : PartitionHealthDimension :=
  {| name := "date";
     partitionKeys := ["2022-01-01"; "2022-01-02"; "2022-01-03"] |}.

Definition keyA : AssetKey := {| path := ["A"] |}.

Definition keyB : AssetKey := {| path := ["B"] |}.

Definition range1D (a b : string) : MaterializedPartitionRange1D :=
  {| r_start := a; r_end := b |}.

Definition range2D (a b : string) (subs : list MaterializedPartitionRange1D)
  : MaterializedPartitionRange2D :=
  {| primaryDimStart := a; primaryDimEnd := b; secondaryDimRanges := subs |}.

(** The positions a pair of keys, given in declared order for the
    dimensions [d0; d1], has on the axes of the ranges: the primary ranges
    run over the second declared dimension when it is time-like, over the
    first otherwise. *)
Definition primaryPosition (isTs : PartitionHealthDimension -> bool)
  (d0 d1 : PartitionHealthDimension) (k0 k1 : string) : Z :=
  if isTs d1 then indexOf (partitionKeys d1) k1 else indexOf (partitionKeys d0) k0.

Definition secondaryPosition (isTs : PartitionHealthDimension -> bool)
  (d0 d1 : PartitionHealthDimension) (k0 k1 : string) : Z :=
  if isTs d1 then indexOf (partitionKeys d0) k0 else indexOf (partitionKeys d1) k1.

(** The ranges that the [filter] of lines 118-120 keeps. *)
Definition matching (h : PartitionHealthData) (d1Idx : Z) : list Range :=
  filter (coversSecondary d1Idx) (env_ranges h).

(** The axes of the ranges for the declared dimensions [d0; d1], and the
    dimension index by which a caller names the secondary axis. *)
Definition primaryAxis (isTs : PartitionHealthDimension -> bool)
  (d0 d1 : PartitionHealthDimension) : PartitionHealthDimension :=
  if isTs d1 then d1 else d0.

Definition secondaryAxis (isTs : PartitionHealthDimension -> bool)
  (d0 d1 : PartitionHealthDimension) : PartitionHealthDimension :=
  if isTs d1 then d0 else d1.

Definition secondaryAxisIndex (isTs : PartitionHealthDimension -> bool)
  (d1 : PartitionHealthDimension) : Z :=
  if isTs d1 then 0 else 1.

(** Every, respectively some, position of [idxs] lies in a range of [M]. *)
Definition allCovered (M : list Range) (idxs : list Z) : Prop :=
  forall i, In i idxs -> exists r, In r M /\ contains (Some i) r = true.

Definition someCovered (M : list Range) (idxs : list Z) : Prop :=
  exists i r, In i idxs /\ In r M /\ contains (Some i) r = true.

(** The key under which an entry is stored. *)
Definition entryKey (r : Entry) : AssetKey := assetKey (loaded r).

(** [n] evaluations of the hook body in a row with the same arguments, no
    response arriving in between: the state after the last one and the
    lists returned, first evaluation first. *)
Fixpoint renders (n : nat) (assetKeys : list AssetKey)
  (assetLastMaterializedAt : string) (s : HookState)
  : HookState * list (list Entry) :=
  match n with
  | O => (s, [])
  | S n' =>
      let (s1, out) := render assetKeys assetLastMaterializedAt s in
      let (s2, outs) := renders n' assetKeys assetLastMaterializedAt s1 in
      (s2, out :: outs)
  end.

(** Queries put to one index, one after the other.  The two closures read
    the constants they captured and assign to none of them, so each answer
    is a function of the index and of the query alone; a caller that
    catches what a query raises goes on with the same index. *)
Inductive Query : Type :=
| ForKey (dimensionKeys : list string)
| ForSingleDimension (dimensionIdx : Z) (dimensionKey : string)
    (otherDimensionSelectedKeys : option (list string)).

Definition ask (h : PartitionHealthData)
  (mergedStates : list PartitionState -> PartitionState) (q : Query)
  : outcome PartitionState :=
  match q with
  | ForKey dimensionKeys => stateForKey h dimensionKeys
  | ForSingleDimension dimensionIdx dimensionKey others =>
      stateForSingleDimension h mergedStates dimensionIdx dimensionKey others
  end.

Definition session (h : PartitionHealthData)
  (mergedStates : list PartitionState -> PartitionState) (qs : list Query)
  : list (outcome PartitionState) :=
  map (ask h mergedStates) qs.

(** ** Vocabulary of the further properties *)

(** How many entries of [dimensions] the decoder reads for a payload:
    none without ranges; the first for a 1D range and for the ends of a 2D
    range; the second as soon as a 2D range lists a secondary range. *)
Definition hasSecondary (range : MaterializedPartitionRange2D) : bool :=
  match secondaryDimRanges range with
  | [] => false
  | _ :: _ => true
  end.

Definition dimensionsRead (mp : MaterializedPartitions) : nat :=
  match mp with
  | MaterializedPartitions1D [] => 0
  | MaterializedPartitions1D (_ :: _) => 1
  | MaterializedPartitions2D [] => 0
  | MaterializedPartitions2D (r :: rs) =>
      if existsb hasSecondary (r :: rs) then 2 else 1
  end.

Definition payloadLength (mp : MaterializedPartitions) : nat :=
  match mp with
  | MaterializedPartitions1D ranges => List.length ranges
  | MaterializedPartitions2D ranges => List.length ranges
  end.

(** A decoded range without its positions: the wire range it came from. *)
Definition erase1D (r : Range) : MaterializedPartitionRange1D :=
  {| r_start := key (start r); r_end := key (end_ r) |}.

Definition erase2D (r : Range) : MaterializedPartitionRange2D :=
  {| primaryDimStart := key (start r);
     primaryDimEnd := key (end_ r);
     secondaryDimRanges :=
       match subranges r with
       | Some subs => map erase1D subs
       | None => []
       end |}.

(** A range as [addIndexes] makes them: a flat one, or a primary one over
    flat secondary ones. *)
Definition flat (r : Range) : Prop :=
  value r = SUCCESS /\ subranges r = None.

Definition decodedShape (r : Range) : Prop :=
  match subranges r with
  | None => value r = SUCCESS
  | Some subs => value r <> MISSING /\ Forall flat subs
  end.

(** The dimension index by which a caller names the primary axis, and the
    tuple, in declared order, of a key of the primary axis and a key of the
    secondary axis. *)
Definition primaryAxisIndex (isTs : PartitionHealthDimension -> bool)
  (d1 : PartitionHealthDimension) : Z :=
  if isTs d1 then 1 else 0.

Definition declaredTuple (isTs : PartitionHealthDimension -> bool)
  (d1 : PartitionHealthDimension) (kp ks : string) : list string :=
  if isTs d1 then [ks; kp] else [kp; ks].

(** No range, primary or secondary, starts at a key that is unknown to its
    dimension. *)
Definition startsKnown (rs : list Range) : bool :=
  forallb (fun r =>
    (0 <=? idx (start r)) &&
    match subranges r with
    | Some subs => forallb (fun sr => 0 <=? idx (start sr)) subs
    | None => true
    end) rs.

(** The keys for which an entry is stored. *)
Definition storedKeys (s : HookState) : list AssetKey :=
  map entryKey (result s).

(** One round of the loop the hook runs by re-rendering: an evaluation of
    the body, then the response to the oldest pending query, which
    [respond] gives for each key. *)
Definition round (isTs : PartitionHealthDimension -> bool)
  (respond : AssetKey -> AssetNodeOrError) (assetKeys : list AssetKey)
  (assetLastMaterializedAt : string) (s : HookState) : HookState :=
  let s1 := fst (render assetKeys assetLastMaterializedAt s) in
  match pending s1 with
  | f :: _ => resolve isTs 0 (respond (loadKey f)) s1
  | [] => s1
  end.

Fixpoint rounds (isTs : PartitionHealthDimension -> bool)
  (respond : AssetKey -> AssetNodeOrError) (assetKeys : list AssetKey)
  (assetLastMaterializedAt : string) (n : nat) (s : HookState) : HookState :=
  match n with
  | O => s
  | S n' =>
      rounds isTs respond assetKeys assetLastMaterializedAt n'
        (round isTs respond assetKeys assetLastMaterializedAt s)
  end.

(** The entry that the response for [k] yields under a hint, if it builds. *)
Definition entryFor (isTs : PartitionHealthDimension -> bool)
  (respond : AssetKey -> AssetNodeOrError) (assetLastMaterializedAt : string)
  (k : AssetKey) : list Entry :=
  match buildPartitionHealthData isTs (respond k) k with
  | Ok l => [{| loaded := l; fetchedAt := assetLastMaterializedAt |}]
  | Throw _ => []
  end.

(** Any number of steps of the hook, one after the other. *)
Inductive steps (isTs : PartitionHealthDimension -> bool)
  : HookState -> HookState -> Prop :=
| steps_none s : steps isTs s s
| steps_more s s' s'' : step isTs s s' -> steps isTs s' s'' -> steps isTs s s''.

(** The entries that the responses for a list of keys yield, in order. *)
Definition entriesFor (isTs : PartitionHealthDimension -> bool)
  (respond : AssetKey -> AssetNodeOrError) (assetLastMaterializedAt : string)
  (ks : list AssetKey) : list Entry :=
  flat_map (entryFor isTs respond assetLastMaterializedAt) ks.

(** * Properties *)

(** Concrete indexes: [built h E] names the index that a closed call of
    [buildPartitionHealthData] in the goal returns, and [computed E] turns
    [E] into the equation of [h] with its value. *)
Ltac built h E :=
  destruct (buildPartitionHealthData _ _ _) as [h | ?] eqn:E;
  [| vm_compute in E; discriminate E].

Ltac computed E :=
  vm_compute in E; injection E as E.

(** ** Arrays *)

Lemma indexOf_from_In (l : list string) (k : string) (i : Z) :
  In k l -> i <= indexOf_from l k i < i + Z.of_nat (List.length l).
Proof.
  revert i; induction l as [|x l IH]; intros i Hin; simpl in *.
  - contradiction.
  - destruct (String.eqb_spec x k) as [E | N].
    + lia.
    + destruct Hin as [E | Hin]; [congruence |].
      specialize (IH (i + 1) Hin); lia.
Qed.

Lemma indexOf_from_notIn (l : list string) (k : string) (i : Z) :
  ~ In k l -> indexOf_from l k i = -1.
Proof.
  revert i; induction l as [|x l IH]; intros i Hn; simpl in *.
  - reflexivity.
  - destruct (String.eqb_spec x k) as [E | N].
    + exfalso; apply Hn; now left.
    + apply IH; intros H; apply Hn; now right.
Qed.

Lemma indexOf_In (l : list string) (k : string) :
  In k l -> 0 <= indexOf l k < Z.of_nat (List.length l).
Proof. intros H; apply (indexOf_from_In l k 0) in H; unfold indexOf; lia. Qed.

Lemma indexOf_notIn (l : list string) (k : string) :
  ~ In k l -> indexOf l k = -1.
Proof. apply indexOf_from_notIn. Qed.

Lemma indexOf_hd (l : list string) :
  l <> [] -> indexOf l (hd "" l) = 0.
Proof.
  destruct l as [|x l]; [congruence |]; intros _.
  unfold indexOf; simpl; now rewrite String.eqb_refl.
Qed.

Lemma indexOf_from_cons (x : string) (l : list string) (k : string) (i : Z) :
  indexOf_from (x :: l) k i =
  if String.eqb x k then i else indexOf_from l k (i + 1).
Proof. reflexivity. Qed.

Lemma last_In (l : list string) (d : string) : l <> [] -> In (last l d) l.
Proof.
  induction l as [|x l IH]; intros Hne; [congruence |].
  destruct l as [|y l]; [now left |].
  right; apply IH; discriminate.
Qed.

Lemma indexOf_from_last (l : list string) (i : Z) :
  l <> [] -> NoDup l ->
  indexOf_from l (last l "") i = i + Z.of_nat (List.length l) - 1.
Proof.
  revert i; induction l as [|x l IH]; intros i Hne Hnd; [congruence |].
  inversion Hnd as [|? ? Hx Hnd']; subst.
  destruct l as [|y l].
  - simpl; rewrite String.eqb_refl; lia.
  - assert (Hl : y :: l <> []) by discriminate.
    change (last (x :: y :: l) "") with (last (y :: l) "").
    rewrite indexOf_from_cons.
    destruct (String.eqb_spec x (last (y :: l) "")) as [E | N].
    + exfalso; apply Hx; rewrite E; now apply last_In.
    + rewrite (IH (i + 1) Hl Hnd').
      change (List.length (x :: y :: l)) with (S (List.length (y :: l))); lia.
Qed.

Lemma indexOf_last (l : list string) :
  l <> [] -> NoDup l -> indexOf l (last l "") = Z.of_nat (List.length l) - 1.
Proof. intros Hne Hnd; unfold indexOf; rewrite indexOf_from_last; auto; lia. Qed.

Lemma mapM_ok {A B : Type} (f : A -> outcome B) (g : A -> B) (l : list A) :
  (forall x, In x l -> f x = Ok (g x)) -> mapM f l = Ok (map g l).
Proof.
  induction l as [|x l IH]; intros H; simpl; [reflexivity |].
  rewrite (H x) by now left.
  simpl; rewrite IH by (intros; apply H; now right).
  reflexivity.
Qed.

Lemma mapM_Forall {A B : Type} (f : A -> outcome B) (P : B -> Prop)
  (l : list A) (l' : list B) :
  (forall x y, In x l -> f x = Ok y -> P y) -> mapM f l = Ok l' -> Forall P l'.
Proof.
  revert l'; induction l as [|x l IH]; intros l' H E; simpl in E.
  - inversion E; constructor.
  - destruct (f x) as [y | e] eqn:Fx; simpl in E; [| discriminate].
    destruct (mapM f l) as [ys | e] eqn:Fl; simpl in E; [| discriminate].
    inversion E; subst; constructor.
    + apply (H x); [now left | assumption].
    + apply IH; [intros; eapply H; eauto; now right | reflexivity].
Qed.

Lemma filterM_ok {A : Type} (p : A -> outcome bool) (q : A -> bool) (l : list A) :
  (forall x, In x l -> p x = Ok (q x)) -> filterM p l = Ok (filter q l).
Proof.
  induction l as [|x l IH]; intros H; simpl; [reflexivity |].
  rewrite (H x) by now left.
  simpl; rewrite IH by (intros; apply H; now right).
  reflexivity.
Qed.

(** ** Decoding *)

Lemma prop_of_0 {A : Type} (x : A) (l : list A) : prop_of (x :: l) 0 = Ok x.
Proof. reflexivity. Qed.

Lemma prop_of_1 {A : Type} (x y : A) (l : list A) : prop_of (x :: y :: l) 1 = Ok y.
Proof. reflexivity. Qed.

Lemma decode1D_at (dims : list PartitionHealthDimension) (n : nat)
  (d : PartitionHealthDimension) (range : MaterializedPartitionRange1D) :
  nth_error dims n = Some d ->
  decode1D dims n range =
  Ok {| start := {| key := r_start range;
                    idx := indexOf (partitionKeys d) (r_start range) |};
        end_ := {| key := r_end range;
                   idx := indexOf (partitionKeys d) (r_end range) |};
        value := SUCCESS;
        subranges := None |}.
Proof.
  intros H; unfold decode1D, bound_in, prop_of, at_; rewrite H; reflexivity.
Qed.

Lemma decode2D_two (d0 d1 : PartitionHealthDimension)
  (rest : list PartitionHealthDimension) (range : MaterializedPartitionRange2D) :
  exists r subs,
    decode2D (d0 :: d1 :: rest) range = Ok r /\
    subranges r = Some subs /\
    subs = map (fun sub =>
      {| start := {| key := r_start sub;
                     idx := indexOf (partitionKeys d1) (r_start sub) |};
         end_ := {| key := r_end sub;
                    idx := indexOf (partitionKeys d1) (r_end sub) |};
         value := SUCCESS;
         subranges := None |}) (secondaryDimRanges range) /\
    idx (start r) = indexOf (partitionKeys d0) (primaryDimStart range) /\
    idx (end_ r) = indexOf (partitionKeys d0) (primaryDimEnd range) /\
    (value r = SUCCESS <->
       exists sub, secondaryDimRanges range = [sub] /\ spansAll d1 sub) /\
    (value r = SUCCESS \/ value r = SUCCESS_MISSING).
Proof.
  unfold decode2D.
  erewrite mapM_ok by (intros; now apply decode1D_at).
  cbn [bind].
  set (subs := map _ (secondaryDimRanges range)).
  assert (Hc : exists v, classify (d0 :: d1 :: rest) subs = Ok v /\
     (v = SUCCESS <->
        exists sub, secondaryDimRanges range = [sub] /\ spansAll d1 sub) /\
     (v = SUCCESS \/ v = SUCCESS_MISSING)).
  { unfold classify, subs, spansAll.
    destruct (secondaryDimRanges range) as [|sub [|sub' l]]; cbn [map].
    - exists SUCCESS_MISSING; repeat split; auto; try discriminate.
      intros (s & E & _); discriminate.
    - cbn [start end_ idx].
      destruct (Z.eqb_spec (indexOf (partitionKeys d1) (r_start sub)) 0) as [E0 | N0].
      + rewrite prop_of_1; cbn [bind].
        destruct (Z.eqb_spec (indexOf (partitionKeys d1) (r_end sub))
                    (Z.of_nat (List.length (partitionKeys d1)) - 1)) as [E1 | N1].
        * exists SUCCESS; repeat split; auto.
          intros _; exists sub; auto.
        * exists SUCCESS_MISSING; repeat split; auto; try discriminate.
          intros (s & E & _ & H); inversion E; subst; contradiction.
      + exists SUCCESS_MISSING; repeat split; auto; try discriminate.
        intros (s & E & H & _); inversion E; subst; contradiction.
    - exists SUCCESS_MISSING; repeat split; auto; try discriminate.
      intros (s & E & _); discriminate. }
  destruct Hc as (v & Ev & Hiff & Hor).
  rewrite Ev; cbn [bind]; unfold bound_in; rewrite prop_of_0; cbn [bind].
  eexists; exists subs; repeat split; cbn; auto; apply Hiff.
Qed.

Lemma mapM_total {A B : Type} (f : A -> outcome B) (l : list A) :
  (forall x, In x l -> exists y, f x = Ok y) ->
  exists l', mapM f l = Ok l' /\
    List.length l' = List.length l /\
    forall i x y, nth_error l i = Some x -> nth_error l' i = Some y -> f x = Ok y.
Proof.
  induction l as [|x l IH]; intros H.
  - exists []; repeat split; auto. intros [|i]; discriminate.
  - destruct (H x (or_introl eq_refl)) as (y & Ey).
    destruct IH as (l' & El & Hlen & Hnth); [intros; apply H; now right |].
    exists (y :: l'); cbn [mapM]; rewrite Ey, El; cbn; repeat split; auto.
    intros [|i] a b; cbn; intros Ha Hb.
    + inversion Ha; inversion Hb; subst; assumption.
    + eapply Hnth; eauto.
Qed.

(** ** C3 *)

(** C3, as the code has it: with two dimensions every range of a 2D payload
    decodes, and the decoded primary range has value SUCCESS exactly when
    the payload lists one single secondary range for it, whose start key is
    at position 0 and whose end key is at the last position of dimension 1;
    in every other case its value is SUCCESS_MISSING.  The secondary list
    is taken as it comes: nothing merges neighbouring ranges. *)
Theorem addIndexes_2D_value (d0 d1 : PartitionHealthDimension)
  (ranges : list MaterializedPartitionRange2D) :
  exists rs,
    addIndexes [d0; d1] (MaterializedPartitions2D ranges) = Ok rs /\
    List.length rs = List.length ranges /\
    forall i range r,
      nth_error ranges i = Some range -> nth_error rs i = Some r ->
      subranges r <> None /\
      (value r = SUCCESS <->
         exists sub, secondaryDimRanges range = [sub] /\ spansAll d1 sub) /\
      (value r <> SUCCESS -> value r = SUCCESS_MISSING).
Proof.
  destruct (@mapM_total _ _ (decode2D [d0; d1]) ranges) as (rs & E & Hlen & Hnth).
  { intros x _; destruct (decode2D_two d0 d1 [] x) as (r & subs & H & _); eauto. }
  exists rs; cbn [addIndexes]; repeat split; auto;
    specialize (Hnth _ _ _ H H0);
    destruct (decode2D_two d0 d1 [] range) as (r' & subs & E' & Hs & _ & _ & _ & Hv & Hor);
    rewrite E' in Hnth; inversion Hnth; subst r'.
  - congruence.
  - apply Hv.
  - apply Hv.
  - intros Hn; destruct Hor; [contradiction | assumption].
Qed.

(** C3, as stated, fails: two neighbouring secondary ranges, over positions
    0..0 and 1..1 of a dimension with two keys, span the whole of dimension
    1, and the primary range is given SUCCESS_MISSING. *)
Lemma contiguous_secondary_ranges_are_partial :
  exists r subs,
    addIndexes [date; region]
      (MaterializedPartitions2D
         [range2D "2022-01-01" "2022-01-03"
            [range1D "eu" "eu"; range1D "us" "us"]]) = Ok [r] /\
    subranges r = Some subs /\
    map (fun s => (idx (start s), idx (end_ s))) subs = [(0, 0); (1, 1)] /\
    Z.of_nat (List.length (partitionKeys region)) = 2 /\
    value r = SUCCESS_MISSING.
Proof. do 2 eexists; repeat split. Qed.

(** ** C8 *)

Lemma third_dimension_raises (h : PartitionHealthData)
  (mergedStates : list PartitionState -> PartitionState) (dimensionIdx : Z)
  (dimensionKey : string) (others : option (list string)) :
  2 <= dimensionIdx ->
  stateForSingleDimension h mergedStates dimensionIdx dimensionKey others
  = Throw thirdDimension.
Proof.
  intros H; unfold stateForSingleDimension.
  destruct (env_isRangeDataInverted h).
  - replace (1 - dimensionIdx =? 0) with false by (symmetry; apply Z.eqb_neq; lia).
    replace (1 - dimensionIdx =? 1) with false by (symmetry; apply Z.eqb_neq; lia).
    reflexivity.
  - replace (dimensionIdx =? 0) with false by (symmetry; apply Z.eqb_neq; lia).
    replace (dimensionIdx =? 1) with false by (symmetry; apply Z.eqb_neq; lia).
    reflexivity.
Qed.

(** C8: whatever the index (any dimensions, any ranges, inverted or not),
    key and selection, a dimension index of 2 or more makes
    [stateForSingleDimension] raise its third-dimension error; and the
    raise ends that call only: among queries put to the same index, those
    before and those after the failing one are answered as they are
    without it. *)
Theorem stateForSingleDimension_third_dimension (h : PartitionHealthData)
  (mergedStates : list PartitionState -> PartitionState) (dimensionIdx : Z)
  (dimensionKey : string) (otherDimensionSelectedKeys : option (list string)) :
  2 <= dimensionIdx ->
  stateForSingleDimension h mergedStates dimensionIdx dimensionKey
    otherDimensionSelectedKeys = Throw thirdDimension /\
  forall before after,
    session h mergedStates
      (before ++
       ForSingleDimension dimensionIdx dimensionKey otherDimensionSelectedKeys
       :: after)%list
    = (session h mergedStates before ++
       Throw thirdDimension :: session h mergedStates after)%list.
Proof.
  intros H; split; [now apply third_dimension_raises |].
  intros before after; unfold session.
  rewrite map_app; cbn [map ask].
  now rewrite third_dimension_raises.
Qed.

Lemma stateForSingleDimension_third_dimension_witness :
  exists h,
    buildPartitionHealthData firstKeyDateLike
      (AssetNode [region; date] (fullPayload [date; region])) keyA = Ok h /\
    2 <= 2 /\
    session h mergedStatesRule
      [ForKey ["eu"; "2022-01-01"]; ForSingleDimension 2 "x" None;
       ForKey ["us"; "2022-01-03"]]
    = [Ok SUCCESS; Throw thirdDimension; Ok SUCCESS].
Proof.
  built h E.
  exists h; split; [reflexivity |].
  assert (H2 : 2 <= 2) by lia.
  split; [exact H2 |].
  computed E.
  change [ForKey ["eu"; "2022-01-01"]; ForSingleDimension 2 "x" None;
          ForKey ["us"; "2022-01-03"]]
    with ([ForKey ["eu"; "2022-01-01"]] ++
          ForSingleDimension 2 "x" None :: [ForKey ["us"; "2022-01-03"]])%list.
  rewrite (proj2 (stateForSingleDimension_third_dimension h mergedStatesRule
                    2 "x" None H2)).
  rewrite <- E; reflexivity.
Defined.

(** ** Point queries *)

Lemma find_existsb {A : Type} (f : A -> bool) (l : list A) :
  existsb f l = match find f l with Some _ => true | None => false end.
Proof.
  induction l as [|x l IH]; simpl; [reflexivity |].
  destruct (f x); simpl; auto.
Qed.

Lemma contains_spec (i : Z) (r : Range) :
  contains (Some i) r = true <-> idx (start r) <= i <= idx (end_ r).
Proof.
  unfold contains, Js.le, Js.ge.
  rewrite andb_true_iff, !Z.leb_le; tauto.
Qed.

Lemma build_two (isTs : PartitionHealthDimension -> bool)
  (d0 d1 : PartitionHealthDimension) (mp : MaterializedPartitions)
  (loadKey : AssetKey) (h : PartitionHealthData) :
  buildPartitionHealthData isTs (AssetNode [d0; d1] mp) loadKey = Ok h ->
  assetKey h = loadKey /\
  dimensions h = [d0; d1] /\
  env_isRangeDataInverted h = isTs d1 /\
  env_dimensions h = (if isTs d1 then [d1; d0] else [d0; d1]) /\
  addIndexes (env_dimensions h) mp = Ok (env_ranges h).
Proof.
  unfold buildPartitionHealthData; cbn [dims_of payload_of isRangeDataInverted range_dimensions].
  destruct (addIndexes _ mp) as [rs | e] eqn:E; cbn [bind]; [| discriminate].
  intros H; inversion H; subst; cbn; auto.
Qed.

(** The point query on the keys of both dimensions, in the order of the
    ranges: the first primary range over the first position decides. *)
Lemma stateForKeyRangeOrdering_pair (h : PartitionHealthData)
  (e0 e1 : PartitionHealthDimension) (a b : string) :
  env_dimensions h = [e0; e1] ->
  stateForKeyRangeOrdering h [a; b] =
  Ok match find (contains (Some (indexOf (partitionKeys e0) a))) (env_ranges h) with
     | None => MISSING
     | Some d0Range =>
         match subranges d0Range with
         | None => SUCCESS
         | Some subs =>
             if existsb (contains (Some (indexOf (partitionKeys e1) b))) subs
             then SUCCESS else MISSING
         end
     end.
Proof.
  intros E; unfold stateForKeyRangeOrdering, mapiM; rewrite E; cbn.
  destruct (find _ (env_ranges h)) as [r |]; [| reflexivity].
  destruct (subranges r) as [subs |]; [| reflexivity].
  rewrite find_existsb; destruct (find _ subs); reflexivity.
Qed.

Lemma stateForKeyRangeOrdering_single (h : PartitionHealthData)
  (e0 : PartitionHealthDimension) (rest : list PartitionHealthDimension)
  (a : string) :
  env_dimensions h = e0 :: rest ->
  stateForKeyRangeOrdering h [a] =
  Ok match find (contains (Some (indexOf (partitionKeys e0) a))) (env_ranges h) with
     | None => MISSING
     | Some d0Range =>
         match subranges d0Range with
         | None => SUCCESS
         | Some subs => MISSING
         end
     end.
Proof.
  intros E; unfold stateForKeyRangeOrdering, mapiM; rewrite E; cbn.
  destruct (find _ (env_ranges h)) as [r |]; [| reflexivity].
  destruct (subranges r) as [subs |]; [| reflexivity].
  assert (F : find (contains None) subs = None).
  { clear; induction subs as [|x l IH]; [reflexivity |]; cbn; exact IH. }
  now rewrite F.
Qed.

Lemma disjoint_not_both (r r' : Range) (i : Z) :
  disjoint r r' = true -> contains (Some i) r = true ->
  contains (Some i) r' = true -> False.
Proof.
  unfold disjoint; rewrite orb_true_iff, !Z.ltb_lt, !contains_spec; lia.
Qed.

Lemma find_nonOverlapping (rs : list Range) (r : Range) (i : Z) :
  nonOverlapping rs = true -> In r rs -> contains (Some i) r = true ->
  find (contains (Some i)) rs = Some r.
Proof.
  induction rs as [|x rs IH]; intros Hno Hin Hc; [contradiction |].
  cbn in Hno; apply andb_true_iff in Hno as [Hx Hrs].
  cbn [find]; destruct Hin as [-> | Hin].
  - now rewrite Hc.
  - destruct (contains (Some i) x) eqn:Cx.
    + exfalso; rewrite forallb_forall in Hx.
      exact (disjoint_not_both _ _ _ (Hx r Hin) Cx Hc).
    + now apply IH.
Qed.

Lemma vouches_dec (p s : Z) (r : Range) :
  vouches p s r <->
  contains (Some p) r = true /\
  match subranges r with
  | None => True
  | Some subs => existsb (contains (Some s)) subs = true
  end.
Proof.
  unfold vouches; split; intros [Hc H]; split; auto.
  - destruct H as [-> | (subs & sr & -> & Hin & Hs)]; [exact I |].
    apply existsb_exists; eauto.
  - destruct (subranges r) as [subs |]; [right | now left].
    apply existsb_exists in H as (sr & Hin & Hs); eauto.
Qed.

Lemma first_range_decides (rs : list Range) (p s : Z) :
  nonOverlapping rs = true ->
  let res :=
    match find (contains (Some p)) rs with
    | None => MISSING
    | Some d0Range =>
        match subranges d0Range with
        | None => SUCCESS
        | Some subs =>
            if existsb (contains (Some s)) subs then SUCCESS else MISSING
        end
    end in
  (res = SUCCESS <-> exists r, In r rs /\ vouches p s r) /\
  (~ (exists r, In r rs /\ vouches p s r) -> res = MISSING).
Proof.
  intros Hno res.
  assert (Hiff : res = SUCCESS <-> exists r, In r rs /\ vouches p s r).
  { subst res; split.
    - destruct (find _ rs) as [r |] eqn:F; [| discriminate].
      apply find_some in F as [Hin Hc].
      intros H; exists r; split; [assumption |].
      apply vouches_dec; split; [assumption |].
      destruct (subranges r) as [subs |]; [| exact I].
      destruct (existsb _ subs); [reflexivity | discriminate].
    - intros (r & Hin & Hv); apply vouches_dec in Hv as [Hc Hs].
      rewrite (find_nonOverlapping _ _ _ Hno Hin Hc).
      destruct (subranges r) as [subs |]; [now rewrite Hs | reflexivity]. }
  split; [exact Hiff |].
  intros Hn; subst res.
  destruct (find _ rs) as [r |]; [| reflexivity].
  destruct (subranges r) as [subs |].
  - destruct (existsb _ subs); [| reflexivity].
    exfalso; apply Hn, Hiff; reflexivity.
  - exfalso; apply Hn, Hiff; reflexivity.
Qed.

(** ** C1 *)

(** C1, as the code has it: on an index built for two dimensions whose
    primary ranges do not overlap, [stateForKey [k0; k1]], keys in declared
    order, is SUCCESS exactly when some primary range lies over the position
    of the key of the primary axis and either has no secondary list or has
    a secondary range over the position of the other key; otherwise it is
    MISSING.  The primary axis is the first declared dimension unless the
    second is time-like, in which case the primary ranges are searched with
    [k1] and the secondary ranges with [k0]. *)
Theorem stateForKey_2D (isTs : PartitionHealthDimension -> bool)
  (d0 d1 : PartitionHealthDimension) (mp : MaterializedPartitions)
  (loadKey : AssetKey) (h : PartitionHealthData) (k0 k1 : string) :
  buildPartitionHealthData isTs (AssetNode [d0; d1] mp) loadKey = Ok h ->
  nonOverlapping (env_ranges h) = true ->
  (stateForKey h [k0; k1] = Ok SUCCESS <->
     exists r, In r (env_ranges h) /\
       vouches (primaryPosition isTs d0 d1 k0 k1)
               (secondaryPosition isTs d0 d1 k0 k1) r) /\
  (~ (exists r, In r (env_ranges h) /\
        vouches (primaryPosition isTs d0 d1 k0 k1)
                (secondaryPosition isTs d0 d1 k0 k1) r) ->
   stateForKey h [k0; k1] = Ok MISSING).
Proof.
  intros Hb Hno.
  destruct (build_two _ _ _ _ _ _ Hb) as (_ & _ & Hinv & Hdims & _).
  unfold stateForKey, primaryPosition, secondaryPosition; rewrite Hinv.
  destruct (isTs d1); cbn [rev app];
    rewrite (stateForKeyRangeOrdering_pair _ _ _ _ _ Hdims);
    match goal with
    | |- context [find (contains (Some ?p)) _] =>
        match goal with
        | |- context [existsb (contains (Some ?s)) _] =>
            destruct (first_range_decides (env_ranges h) p s Hno) as [Hiff Hmiss]
        end
    end;
    (split; [rewrite <- Hiff; split; congruence | intros Hn; f_equal; auto]).
Qed.

Lemma stateForKey_2D_witness :
  exists h,
    buildPartitionHealthData firstKeyDateLike
      (AssetNode [region; date]
         (MaterializedPartitions2D
            [range2D "2022-01-01" "2022-01-02" [range1D "eu" "eu"];
             range2D "2022-01-03" "2022-01-03" [range1D "eu" "us"]]))
      keyA = Ok h /\
    nonOverlapping (env_ranges h) = true /\
    stateForKey h ["us"; "2022-01-03"] = Ok SUCCESS.
Proof.
  built h E.
  exists h; split; [reflexivity |].
  pose proof E as E'; computed E'.
  assert (Hno : nonOverlapping (env_ranges h) = true) by (now rewrite <- E').
  split; [exact Hno |].
  apply (proj1 (stateForKey_2D _ _ _ _ _ _ "us" "2022-01-03" E Hno)).
  rewrite <- E'; eexists; split; [right; left; reflexivity |].
  split; [reflexivity |].
  right; do 2 eexists; split; [reflexivity |]; split; [left; reflexivity | reflexivity].
Defined.

(** C1, as stated, fails on an index whose second declared dimension is
    time-like: with the dimensions region, date and the one primary range
    2022-01-03..2022-01-03 holding the secondary range eu..eu, the pair
    (eu, 2022-01-03) is SUCCESS, and no primary range lies over position 0,
    that of k0 = eu in its dimension. *)
Lemma stateForKey_declared_order_fails :
  exists h,
    buildPartitionHealthData firstKeyDateLike
      (AssetNode [region; date]
         (MaterializedPartitions2D
            [range2D "2022-01-03" "2022-01-03" [range1D "eu" "eu"]]))
      keyA = Ok h /\
    In "eu" (partitionKeys region) /\
    In "2022-01-03" (partitionKeys date) /\
    nonOverlapping (env_ranges h) = true /\
    stateForKey h ["eu"; "2022-01-03"] = Ok SUCCESS /\
    ~ (exists r, In r (env_ranges h) /\
         vouches (indexOf (partitionKeys region) "eu")
                 (indexOf (partitionKeys date) "2022-01-03") r).
Proof.
  eexists; split; [reflexivity |].
  split; [now left |]; split; [right; right; now left |].
  split; [reflexivity |]; split; [reflexivity |].
  intros (r & [<- | []] & Hc & _); discriminate Hc.
Qed.

(** When primary ranges overlap, the first one over the position decides
    alone: here the second range holds (eu, us) and the answer is MISSING. *)
Example stateForKey_overlapping_ranges :
  exists h,
    buildPartitionHealthData firstKeyDateLike
      (AssetNode [region; region]
         (MaterializedPartitions2D
            [range2D "eu" "eu" [range1D "eu" "eu"];
             range2D "eu" "eu" [range1D "us" "us"]]))
      keyA = Ok h /\
    nonOverlapping (env_ranges h) = false /\
    stateForKey h ["eu"; "us"] = Ok MISSING.
Proof. eexists; repeat split. Qed.

(** ** Partial queries, branch by branch *)

(** The dimension index after the adjustment of lines 95-97. *)
Lemma stateForSingleDimension_primary (h : PartitionHealthData)
  (mergedStates : list PartitionState -> PartitionState)
  (e0 e1 : PartitionHealthDimension) (dimensionIdx : Z) (dimensionKey : string) :
  env_dimensions h = [e0; e1] ->
  (if env_isRangeDataInverted h then 1 - dimensionIdx else dimensionIdx) = 0 ->
  stateForSingleDimension h mergedStates dimensionIdx dimensionKey None =
  Ok match find (contains (Some (indexOf (partitionKeys e0) dimensionKey)))
             (env_ranges h) with
     | Some d0Range => value d0Range
     | None => MISSING
     end.
Proof.
  intros Hd Hi; unfold stateForSingleDimension; rewrite Hi, Hd; cbn.
  destruct (find _ (env_ranges h)); reflexivity.
Qed.

Lemma stateForSingleDimension_primary_selection (h : PartitionHealthData)
  (mergedStates : list PartitionState -> PartitionState)
  (e0 e1 : PartitionHealthDimension) (dimensionIdx : Z) (dimensionKey : string)
  (others : list string) :
  env_dimensions h = [e0; e1] ->
  (if env_isRangeDataInverted h then 1 - dimensionIdx else dimensionIdx) = 0 ->
  stateForSingleDimension h mergedStates dimensionIdx dimensionKey (Some others) =
  (states <- mapM (fun k => stateForKeyRangeOrdering h [dimensionKey; k]) others ;;
   Ok (mergedStates states)).
Proof.
  intros Hd Hi; unfold stateForSingleDimension; rewrite Hi, Hd; reflexivity.
Qed.

Lemma stateForSingleDimension_secondary (h : PartitionHealthData)
  (mergedStates : list PartitionState -> PartitionState)
  (e0 e1 : PartitionHealthDimension) (dimensionIdx : Z) (dimensionKey : string)
  (others : option (list string)) :
  env_dimensions h = [e0; e1] ->
  (forall r, In r (env_ranges h) -> subranges r <> None) ->
  (if env_isRangeDataInverted h then 1 - dimensionIdx else dimensionIdx) = 1 ->
  stateForSingleDimension h mergedStates dimensionIdx dimensionKey others =
  let M := matching h (indexOf (partitionKeys e1) dimensionKey) in
  let all :=
    match others with
    | None => (List.length M =? List.length (env_ranges h))%nat
    | Some ks =>
        forallb (fun i => existsb (contains (Some i)) M)
                (map (indexOf (partitionKeys e0)) ks)
    end in
  Ok (if all then SUCCESS
      else if (0 <? List.length M)%nat then SUCCESS_MISSING else MISSING).
Proof.
  intros Hd Hs Hi; unfold stateForSingleDimension; rewrite Hi, Hd.
  cbn [Z.eqb andb Pos.eqb].
  assert (HM : filterM (hasSubrangeWith (indexOf (partitionKeys e1) dimensionKey))
                 (env_ranges h) =
               Ok (matching h (indexOf (partitionKeys e1) dimensionKey))).
  { apply filterM_ok; intros r Hin; unfold hasSubrangeWith, coversSecondary.
    specialize (Hs r Hin); destruct (subranges r); [reflexivity | congruence]. }
  destruct others as [ks |].
  - rewrite (mapM_ok _ (indexOf (partitionKeys e0))) by reflexivity.
    cbn [bind]; rewrite prop_of_1; cbn [bind]; rewrite HM; cbn [bind].
    destruct (forallb _ _); [reflexivity |].
    destruct (0 <? _)%nat; reflexivity.
  - cbn [bind]; rewrite prop_of_1; cbn [bind]; rewrite HM; cbn [bind].
    destruct (_ =? _)%nat; [reflexivity |].
    destruct (0 <? _)%nat; reflexivity.
Qed.

(** Every primary range decoded from a 2D payload has a secondary list. *)
Lemma addIndexes_2D_subranges (dims : list PartitionHealthDimension)
  (ranges : list MaterializedPartitionRange2D) (rs : list Range) :
  addIndexes dims (MaterializedPartitions2D ranges) = Ok rs ->
  forall r, In r rs -> subranges r <> None.
Proof.
  cbn [addIndexes]; intros E.
  apply Forall_forall.
  eapply mapM_Forall; [| exact E].
  clear E; intros x y _; unfold decode2D.
  destruct (mapM _ _); cbn [bind]; [| discriminate].
  destruct (classify _ _); cbn [bind]; [| discriminate].
  destruct (bound_in dims 0 (primaryDimStart x)); cbn [bind]; [| discriminate].
  destruct (bound_in dims 0 (primaryDimEnd x)); cbn [bind]; [| discriminate].
  intros H; inversion H; cbn; discriminate.
Qed.

(** ** C9 *)

Lemma full_contains (d : PartitionHealthDimension) (k : string) (r : Range) :
  idx (start r) = 0 ->
  idx (end_ r) = Z.of_nat (List.length (partitionKeys d)) - 1 ->
  In k (partitionKeys d) ->
  contains (Some (indexOf (partitionKeys d) k)) r = true.
Proof.
  intros Hs He Hin; apply contains_spec.
  apply indexOf_In in Hin; lia.
Qed.

Lemma wellFormed_first (d : PartitionHealthDimension) :
  wellFormed d -> indexOf (partitionKeys d) (firstKey d) = 0.
Proof. intros [Hne _]; now apply indexOf_hd. Qed.

Lemma wellFormed_last (d : PartitionHealthDimension) :
  wellFormed d ->
  indexOf (partitionKeys d) (lastKey d) = Z.of_nat (List.length (partitionKeys d)) - 1.
Proof. intros [Hne Hnd]; now apply indexOf_last. Qed.

Lemma build_full_1D (isTs : PartitionHealthDimension -> bool)
  (d0 : PartitionHealthDimension) (loadKey : AssetKey) :
  wellFormed d0 ->
  exists h r,
    buildPartitionHealthData isTs (AssetNode [d0] (fullPayload [d0])) loadKey = Ok h /\
    env_dimensions h = [d0] /\
    env_isRangeDataInverted h = false /\
    env_ranges h = [r] /\
    idx (start r) = 0 /\
    idx (end_ r) = Z.of_nat (List.length (partitionKeys d0)) - 1 /\
    subranges r = None.
Proof.
  intros Hwf; do 2 eexists; split; [reflexivity |].
  split; [reflexivity |]; split; [reflexivity |]; split; [reflexivity |].
  split; [exact (wellFormed_first d0 Hwf) |].
  split; [exact (wellFormed_last d0 Hwf) | reflexivity].
Qed.

Lemma build_full_2D (isTs : PartitionHealthDimension -> bool)
  (d0 d1 e0 e1 : PartitionHealthDimension) (loadKey : AssetKey) :
  range_dimensions isTs [d0; d1] = [e0; e1] ->
  wellFormed e0 -> wellFormed e1 ->
  exists h r sr,
    buildPartitionHealthData isTs (AssetNode [d0; d1] (fullPayload [e0; e1]))
      loadKey = Ok h /\
    env_dimensions h = [e0; e1] /\
    env_isRangeDataInverted h = isTs d1 /\
    env_ranges h = [r] /\
    idx (start r) = 0 /\
    idx (end_ r) = Z.of_nat (List.length (partitionKeys e0)) - 1 /\
    value r = SUCCESS /\
    subranges r = Some [sr] /\
    idx (start sr) = 0 /\
    idx (end_ sr) = Z.of_nat (List.length (partitionKeys e1)) - 1.
Proof.
  intros Hrd H0 H1.
  unfold buildPartitionHealthData; cbn [dims_of payload_of]; rewrite Hrd.
  cbn [fullPayload addIndexes mapM].
  destruct (decode2D_two e0 e1 [] {| primaryDimStart := firstKey e0;
                                     primaryDimEnd := lastKey e0;
                                     secondaryDimRanges :=
                                       [{| r_start := firstKey e1; r_end := lastKey e1 |}] |})
    as (r & subs & E & Hsub & Hsubs & Hs & He & Hv & _).
  rewrite E; cbn [bind]; cbn [secondaryDimRanges map r_start r_end] in Hsubs.
  do 3 eexists; split; [reflexivity |]; cbn.
  repeat split.
  - cbn [primaryDimStart] in Hs; now rewrite Hs, wellFormed_first.
  - cbn [primaryDimEnd] in He; now rewrite He, wellFormed_last.
  - apply Hv; eexists; split; [reflexivity |].
    split; cbn; auto using wellFormed_first, wellFormed_last.
  - rewrite Hsub, Hsubs; reflexivity.
  - cbn; now apply wellFormed_first.
  - cbn; now apply wellFormed_last.
Qed.

Lemma full_primary (h : PartitionHealthData)
  (mergedStates : list PartitionState -> PartitionState)
  (e0 e1 : PartitionHealthDimension) (r : Range) (dimensionIdx : Z) (k : string) :
  env_dimensions h = [e0; e1] ->
  env_ranges h = [r] ->
  idx (start r) = 0 ->
  idx (end_ r) = Z.of_nat (List.length (partitionKeys e0)) - 1 ->
  value r = SUCCESS ->
  (if env_isRangeDataInverted h then 1 - dimensionIdx else dimensionIdx) = 0 ->
  In k (partitionKeys e0) ->
  stateForSingleDimension h mergedStates dimensionIdx k None = Ok SUCCESS.
Proof.
  intros Hd Hr Hs He Hval Hi Hk.
  rewrite (stateForSingleDimension_primary h mergedStates e0 e1 _ k Hd Hi).
  rewrite Hr; cbn [find].
  now rewrite (full_contains e0 k r Hs He Hk), Hval.
Qed.

Lemma full_secondary (h : PartitionHealthData)
  (mergedStates : list PartitionState -> PartitionState)
  (e0 e1 : PartitionHealthDimension) (r sr : Range) (dimensionIdx : Z)
  (k : string) :
  env_dimensions h = [e0; e1] ->
  env_ranges h = [r] ->
  subranges r = Some [sr] ->
  idx (start sr) = 0 ->
  idx (end_ sr) = Z.of_nat (List.length (partitionKeys e1)) - 1 ->
  (if env_isRangeDataInverted h then 1 - dimensionIdx else dimensionIdx) = 1 ->
  In k (partitionKeys e1) ->
  stateForSingleDimension h mergedStates dimensionIdx k None = Ok SUCCESS.
Proof.
  intros Hd Hr Hsub Hss Hse Hi Hk.
  rewrite (stateForSingleDimension_secondary h mergedStates e0 e1 _ k None Hd);
    [| rewrite Hr; intros x [<- | []]; congruence | exact Hi].
  unfold matching; rewrite Hr; cbn [filter].
  unfold coversSecondary at 1; rewrite Hsub; cbn [existsb].
  now rewrite (full_contains e1 k sr Hss Hse Hk).
Qed.

(** C9: for one or two dimensions, each with at least one key and no key
    twice, the index built from the payload that declares the whole key
    space as one full range (laid out as the wire lays it out: the primary
    range over the dimension the ranges run over, which is the second
    declared dimension when that one is time-like) answers SUCCESS to
    [stateForKey] on every list of one key per declared dimension, and
    SUCCESS to [stateForSingleDimension i k] on every key [k] of the
    declared dimension [i]; for [i = 0] this is the statement about
    [stateForSingleDimension 0 k] and the keys of dimension 0. *)
Theorem full_payload_all_SUCCESS (isTs : PartitionHealthDimension -> bool)
  (mergedStates : list PartitionState -> PartitionState)
  (dims : list PartitionHealthDimension) (loadKey : AssetKey) :
  (List.length dims = 1 \/ List.length dims = 2)%nat ->
  Forall wellFormed dims ->
  exists h,
    buildPartitionHealthData isTs
      (AssetNode dims (fullPayload (range_dimensions isTs dims))) loadKey = Ok h /\
    (forall ks, validKeys dims ks -> stateForKey h ks = Ok SUCCESS) /\
    (forall i d k, nth_error dims i = Some d -> In k (partitionKeys d) ->
       stateForSingleDimension h mergedStates (Z.of_nat i) k None = Ok SUCCESS).
Proof.
  intros Hlen Hwf.
  destruct dims as [|d0 [|d1 [|d2 dims]]]; cbn in Hlen; try lia.
  - (* one dimension *)
    inversion Hwf as [|? ? H0 _]; subst.
    destruct (build_full_1D isTs d0 loadKey H0)
      as (h & r & Hb & Hd & Hinv & Hr & Hs & He & Hsub).
    exists h; split; [exact Hb |]; split.
    + intros ks Hv; inversion Hv as [|? k ? ? Hk Hnil]; subst.
      inversion Hnil; subst.
      unfold stateForKey; rewrite Hinv.
      rewrite (stateForKeyRangeOrdering_single _ _ _ _ Hd), Hr; cbn [find].
      now rewrite (full_contains d0 k r Hs He Hk), Hsub.
    + intros i d k Hi Hk.
      destruct i as [|i]; [| destruct i; discriminate Hi].
      cbn in Hi; inversion Hi; subst d.
      unfold stateForSingleDimension; rewrite Hinv, Hd.
      cbn [Z.of_nat Z.eqb List.length Nat.eqb andb].
      rewrite (stateForKeyRangeOrdering_single _ _ _ _ Hd), Hr; cbn [find].
      now rewrite (full_contains d0 k r Hs He Hk), Hsub.
  - (* two dimensions *)
    inversion Hwf as [|? ? H0 Hwf']; subst.
    inversion Hwf' as [|? ? H1 _]; subst.
    assert (Hrd : exists e0 e1,
              range_dimensions isTs [d0; d1] = [e0; e1] /\
              wellFormed e0 /\ wellFormed e1 /\
              (if isTs d1 then e0 = d1 /\ e1 = d0 else e0 = d0 /\ e1 = d1)).
    { cbn; destruct (isTs d1); [exists d1, d0 | exists d0, d1];
        (split; [reflexivity |]; split; [assumption |]; split; [assumption |];
         split; reflexivity). }
    destruct Hrd as (e0 & e1 & Hrd & W0 & W1 & Hsw).
    rewrite Hrd.
    destruct (build_full_2D isTs d0 d1 e0 e1 loadKey Hrd W0 W1)
      as (h & r & sr & Hb & Hd & Hinv & Hr & Hs & He & Hval & Hsub & Hss & Hse).
    exists h; split; [exact Hb |]; split.
    + intros ks Hv; inversion Hv as [|? k0 ? ? Hk0 Hv']; subst.
      inversion Hv' as [|? k1 ? ? Hk1 Hnil]; subst.
      inversion Hnil; subst.
      unfold stateForKey; rewrite Hinv.
      destruct (isTs d1); destruct Hsw as [-> ->]; cbn [rev app];
        rewrite (stateForKeyRangeOrdering_pair _ _ _ _ _ Hd), Hr; cbn [find].
      * rewrite (full_contains d1 k1 r Hs He Hk1), Hsub; cbn [existsb].
        now rewrite (full_contains d0 k0 sr Hss Hse Hk0).
      * rewrite (full_contains d0 k0 r Hs He Hk0), Hsub; cbn [existsb].
        now rewrite (full_contains d1 k1 sr Hss Hse Hk1).
    + intros i d k Hi Hk.
      destruct i as [|[|i]]; [| | destruct i; discriminate Hi];
        cbn in Hi; inversion Hi; subst d;
        destruct (isTs d1) eqn:Ets; destruct Hsw as [-> ->].
      * apply (full_secondary h mergedStates d1 d0 r sr); auto.
        now rewrite Hinv.
      * apply (full_primary h mergedStates d0 d1 r); auto.
        now rewrite Hinv.
      * apply (full_primary h mergedStates d1 d0 r); auto.
        now rewrite Hinv.
      * apply (full_secondary h mergedStates d0 d1 r sr); auto.
        now rewrite Hinv.
Qed.

Lemma full_payload_all_SUCCESS_witness :
  (List.length [region; date] = 1 \/ List.length [region; date] = 2)%nat /\
  Forall wellFormed [region; date] /\
  exists h,
    buildPartitionHealthData firstKeyDateLike
      (AssetNode [region; date] (fullPayload [date; region])) keyA = Ok h /\
    stateForKey h ["us"; "2022-01-02"] = Ok SUCCESS /\
    stateForSingleDimension h mergedStatesRule 0 "eu" None = Ok SUCCESS.
Proof.
  assert (Hlen : (List.length [region; date] = 1 \/
                  List.length [region; date] = 2)%nat) by (right; reflexivity).
  assert (Hwf : Forall wellFormed [region; date]).
  { assert (Hr : wellFormed region).
    { split; [discriminate |].
      repeat constructor; cbn; intuition discriminate. }
    assert (Hd : wellFormed date).
    { split; [discriminate |].
      repeat constructor; cbn; intuition discriminate. }
    constructor; [exact Hr | constructor; [exact Hd | constructor]]. }
  split; [exact Hlen |]; split; [exact Hwf |].
  destruct (full_payload_all_SUCCESS firstKeyDateLike mergedStatesRule
              [region; date] keyA Hlen Hwf) as (h & Hb & Hk & Hs).
  exists h; split; [exact Hb |]; split.
  - apply Hk; constructor; [cbn; auto | constructor; [cbn; auto | constructor]].
  - apply (Hs 0%nat region); [reflexivity | cbn; auto].
Defined.

(** ** C4 *)

Lemma filter_length_all {A : Type} (f : A -> bool) (l : list A) :
  List.length (filter f l) = List.length l <-> forall x, In x l -> f x = true.
Proof.
  induction l as [|x l IH]; cbn.
  - split; [intros _ y [] | reflexivity].
  - pose proof (filter_length_le f l) as Hle.
    destruct (f x) eqn:Fx; cbn; split.
    + intros E y [<- | Hy]; [assumption | apply IH; [lia | assumption]].
    + intros H; f_equal; apply IH; auto.
    + intros E; lia.
    + intros H; specialize (H x (or_introl eq_refl)); congruence.
Qed.

Lemma filter_nil_none {A : Type} (f : A -> bool) (l : list A) :
  filter f l = [] <-> forall x, In x l -> f x = false.
Proof.
  induction l as [|x l IH]; cbn.
  - split; [intros _ y [] | reflexivity].
  - destruct (f x) eqn:Fx; split.
    + discriminate.
    + intros H; specialize (H x (or_introl eq_refl)); congruence.
    + intros E y [<- | Hy]; [assumption | now apply IH].
    + intros H; apply IH; auto.
Qed.

Lemma allCovered_forallb (M : list Range) (idxs : list Z) :
  forallb (fun i => existsb (contains (Some i)) M) idxs = true <->
  allCovered M idxs.
Proof.
  unfold allCovered; rewrite forallb_forall; split; intros H i Hi.
  - apply existsb_exists; auto.
  - apply existsb_exists; auto.
Qed.

Lemma length_pos_nil {A : Type} (l : list A) :
  (0 <? List.length l)%nat = false <-> l = [].
Proof.
  destruct l; cbn; split; auto; discriminate.
Qed.

(** C4, as the code has it, for an index built from two dimensions and a
    2D payload, queried on the secondary axis of its ranges (dimension
    index 1, or 0 when the second declared dimension is time-like); a
    primary range matches when one of its secondary ranges lies over the
    position of the key.
    With a non-empty selection of keys of the primary axis the answer is
    SUCCESS exactly when the position of every selected key lies in some
    matching primary range; it is MISSING when no primary range matches,
    and SUCCESS_MISSING when some but not all selected positions lie in a
    matching primary range.
    With no selection and at least one primary range the answer is SUCCESS
    exactly when all primary ranges match, MISSING exactly when none does,
    and SUCCESS_MISSING otherwise. *)
Theorem stateForSingleDimension_secondary_axis
  (isTs : PartitionHealthDimension -> bool)
  (mergedStates : list PartitionState -> PartitionState)
  (d0 d1 : PartitionHealthDimension) (ranges : list MaterializedPartitionRange2D)
  (loadKey : AssetKey) (h : PartitionHealthData) (dimensionKey : string) :
  buildPartitionHealthData isTs
    (AssetNode [d0; d1] (MaterializedPartitions2D ranges)) loadKey = Ok h ->
  let query := stateForSingleDimension h mergedStates
                 (secondaryAxisIndex isTs d1) dimensionKey in
  let d1Idx := indexOf (partitionKeys (secondaryAxis isTs d0 d1)) dimensionKey in
  let M := matching h d1Idx in
  (forall others, others <> [] ->
     let idxs := map (indexOf (partitionKeys (primaryAxis isTs d0 d1))) others in
     (query (Some others) = Ok SUCCESS <-> allCovered M idxs) /\
     (M = [] -> query (Some others) = Ok MISSING) /\
     (someCovered M idxs -> ~ allCovered M idxs ->
      query (Some others) = Ok SUCCESS_MISSING)) /\
  (env_ranges h <> [] ->
   (query None = Ok SUCCESS <->
      forall r, In r (env_ranges h) -> coversSecondary d1Idx r = true) /\
   (query None = Ok MISSING <->
      forall r, In r (env_ranges h) -> coversSecondary d1Idx r = false) /\
   (query None <> Ok SUCCESS -> query None <> Ok MISSING ->
    query None = Ok SUCCESS_MISSING)).
Proof.
  intros Hb query d1Idx M.
  destruct (build_two _ _ _ _ _ _ Hb) as (_ & _ & Hinv & Hdims & Hadd).
  pose proof (addIndexes_2D_subranges _ _ _ Hadd) as Hsub.
  assert (Hq : forall others,
    query others =
    let all :=
      match others with
      | None => (List.length M =? List.length (env_ranges h))%nat
      | Some ks =>
          forallb (fun i => existsb (contains (Some i)) M)
                  (map (indexOf (partitionKeys (primaryAxis isTs d0 d1))) ks)
      end in
    Ok (if all then SUCCESS
        else if (0 <? List.length M)%nat then SUCCESS_MISSING else MISSING)).
  { intros others; subst query M d1Idx.
    unfold secondaryAxisIndex, secondaryAxis, primaryAxis.
    destruct (isTs d1);
      (erewrite stateForSingleDimension_secondary;
       [reflexivity | exact Hdims | exact Hsub | now rewrite Hinv]). }
  split.
  - intros others Hne idxs.
    rewrite (Hq (Some others)); cbn zeta; fold idxs.
    assert (Hidx : idxs <> []) by (subst idxs; destruct others; [congruence | discriminate]).
    destruct (forallb _ idxs) eqn:Hall.
    + apply allCovered_forallb in Hall.
      split; [tauto |]; split.
      * intros HM; exfalso.
        destruct idxs as [|i idxs']; [congruence |].
        destruct (Hall i (or_introl eq_refl)) as (r & Hr & _).
        rewrite HM in Hr; contradiction.
      * intros _ Hn; contradiction.
    + assert (Hnall : ~ allCovered M idxs).
      { intros H; apply allCovered_forallb in H; congruence. }
      split; [| split].
      * split; [| contradiction].
        destruct (0 <? _)%nat; discriminate.
      * intros ->; reflexivity.
      * intros (i & r & _ & Hr & _) _.
        destruct M; [contradiction | reflexivity].
  - intros Hne; rewrite (Hq None); cbn zeta.
    pose proof (filter_length_all (coversSecondary d1Idx) (env_ranges h)) as Hall.
    pose proof (filter_nil_none (coversSecondary d1Idx) (env_ranges h)) as Hnone.
    fold (matching h d1Idx) in Hall, Hnone; fold M in Hall, Hnone.
    destruct (Nat.eqb_spec (List.length M) (List.length (env_ranges h))) as [E | N].
    + split; [tauto |]; split; [| intros H; congruence].
      split; [discriminate |].
      intros H; apply Hnone in H; rewrite H in E.
      destruct (env_ranges h); [congruence | discriminate].
    + split; [| split].
      * split; [destruct (0 <? _)%nat; discriminate | intros H; apply Hall in H; contradiction].
      * destruct (0 <? List.length M)%nat eqn:Hpos.
        -- split; [discriminate |].
           intros H; apply Hnone in H; rewrite H in Hpos; discriminate.
        -- split; [| reflexivity].
           intros _; apply Hnone, length_pos_nil, Hpos.
      * destruct (0 <? List.length M)%nat; [reflexivity | congruence].
Qed.

Lemma stateForSingleDimension_secondary_axis_witness :
  exists h,
    buildPartitionHealthData firstKeyDateLike
      (AssetNode [date; region]
         (MaterializedPartitions2D
            [range2D "2022-01-01" "2022-01-02" [range1D "eu" "eu"];
             range2D "2022-01-03" "2022-01-03" [range1D "us" "us"]]))
      keyA = Ok h /\
    stateForSingleDimension h mergedStatesRule 1 "eu" (Some ["2022-01-01"])
      = Ok SUCCESS /\
    stateForSingleDimension h mergedStatesRule 1 "eu" None = Ok SUCCESS_MISSING.
Proof.
  built h E.
  exists h; split; [reflexivity |].
  pose proof E as E'; computed E'.
  destruct (stateForSingleDimension_secondary_axis firstKeyDateLike
              mergedStatesRule date region _ keyA h "eu" E) as [Hsel Hnone].
  split.
  - apply (proj1 (Hsel ["2022-01-01"] ltac:(discriminate))).
    rewrite <- E'; intros i [<- | []].
    eexists; split; [left; reflexivity | reflexivity].
  - assert (Hne : env_ranges h <> []) by (rewrite <- E'; discriminate).
    destruct (Hnone Hne) as (_ & _ & Hmixed).
    apply Hmixed; rewrite <- E'; discriminate.
Defined.

(** C4, as stated, fails on an index whose second declared dimension is
    time-like, where dimension index 1 names the primary axis and the call
    takes the branch of lines 101-110: with the dimensions region, date and
    the one primary range 2022-01-03..2022-01-03 holding the secondary
    range eu..eu, no primary range has a secondary range over position 2,
    that of the key 2022-01-03 in dimension 1, and the answer is not MISSING
    but the value of the containing primary range, SUCCESS_MISSING. *)
Lemma stateForSingleDimension_1_inverted_fails :
  exists h,
    buildPartitionHealthData firstKeyDateLike
      (AssetNode [region; date]
         (MaterializedPartitions2D
            [range2D "2022-01-03" "2022-01-03" [range1D "eu" "eu"]]))
      keyA = Ok h /\
    env_ranges h <> [] /\
    (forall r, In r (env_ranges h) ->
       coversSecondary (indexOf (partitionKeys date) "2022-01-03") r = false) /\
    stateForSingleDimension h mergedStatesRule 1 "2022-01-03" None
      = Ok SUCCESS_MISSING.
Proof.
  eexists; split; [reflexivity |].
  split; [discriminate |]; split; [| reflexivity].
  intros r [<- | []]; reflexivity.
Qed.

(** The selection is only looked at to decide SUCCESS: when none of the
    selected positions lies in a matching primary range and some other
    primary range matches, the answer is SUCCESS_MISSING. *)
Example stateForSingleDimension_selection_elsewhere :
  exists h,
    buildPartitionHealthData firstKeyDateLike
      (AssetNode [date; region]
         (MaterializedPartitions2D
            [range2D "2022-01-01" "2022-01-02" [range1D "eu" "eu"];
             range2D "2022-01-03" "2022-01-03" [range1D "us" "us"]]))
      keyA = Ok h /\
    ~ someCovered (matching h (indexOf (partitionKeys region) "eu"))
        (map (indexOf (partitionKeys date)) ["2022-01-03"]) /\
    stateForKey h ["2022-01-03"; "eu"] = Ok MISSING /\
    stateForSingleDimension h mergedStatesRule 1 "eu" (Some ["2022-01-03"])
      = Ok SUCCESS_MISSING.
Proof.
  eexists; split; [reflexivity |]; split; [| split; reflexivity].
  intros (i & r & [<- | []] & [<- | []] & Hc); discriminate Hc.
Qed.

(** ** C7 *)

(** C7 fails on the secondary axis of an index without ranges: the key zz
    is in no dimension, resolves to -1, no range lies over it, and the
    answer is SUCCESS, because zero matching ranges are all of zero
    ranges. *)
Theorem unknown_key_without_ranges_is_SUCCESS :
  exists h,
    buildPartitionHealthData firstKeyDateLike
      (AssetNode [date; region] (MaterializedPartitions2D [])) keyA = Ok h /\
    env_ranges h = [] /\
    indexOf (partitionKeys region) "zz" = -1 /\
    stateForSingleDimension h mergedStatesRule 1 "zz" None = Ok SUCCESS.
Proof. eexists; repeat split. Qed.

(** Where the claim of C7 holds: the point query, and the partial query
    on the primary axis. *)
Lemma minus_one_not_contained (rs : list Range) :
  Forall (fun r => 0 <= idx (start r)) rs ->
  find (contains (Some (-1))) rs = None.
Proof.
  induction 1 as [|r rs Hr _ IH]; [reflexivity |].
  cbn [find]; destruct (contains (Some (-1)) r) eqn:C; [| exact IH].
  apply contains_spec in C; lia.
Qed.

Lemma stateForKeyRangeOrdering_unknown_primary (h : PartitionHealthData)
  (e0 e1 : PartitionHealthDimension) (a b : string) :
  env_dimensions h = [e0; e1] ->
  Forall (fun r => 0 <= idx (start r)) (env_ranges h) ->
  ~ In a (partitionKeys e0) ->
  stateForKeyRangeOrdering h [a; b] = Ok MISSING.
Proof.
  intros Hd Hpos Hn.
  rewrite (stateForKeyRangeOrdering_pair _ _ _ _ _ Hd).
  now rewrite (indexOf_notIn _ _ Hn), minus_one_not_contained.
Qed.

Lemma stateForKeyRangeOrdering_unknown_secondary (h : PartitionHealthData)
  (e0 e1 : PartitionHealthDimension) (a b : string) :
  env_dimensions h = [e0; e1] ->
  (forall r, In r (env_ranges h) ->
     exists subs, subranges r = Some subs /\
                  Forall (fun sr => 0 <= idx (start sr)) subs) ->
  ~ In b (partitionKeys e1) ->
  stateForKeyRangeOrdering h [a; b] = Ok MISSING.
Proof.
  intros Hd Hsub Hn.
  rewrite (stateForKeyRangeOrdering_pair _ _ _ _ _ Hd).
  destruct (find _ (env_ranges h)) as [r |] eqn:F; [| reflexivity].
  apply find_some in F as [Hin _].
  destruct (Hsub r Hin) as (subs & -> & Hpos).
  rewrite (indexOf_notIn _ _ Hn), find_existsb.
  now rewrite minus_one_not_contained.
Qed.

Lemma stateForKeyRangeOrdering_unknown_1D (h : PartitionHealthData)
  (e0 : PartitionHealthDimension) (a : string) :
  env_dimensions h = [e0] ->
  Forall (fun r => 0 <= idx (start r)) (env_ranges h) ->
  ~ In a (partitionKeys e0) ->
  stateForKeyRangeOrdering h [a] = Ok MISSING.
Proof.
  intros Hd Hpos Hn.
  rewrite (stateForKeyRangeOrdering_single _ _ _ _ Hd).
  now rewrite (indexOf_notIn _ _ Hn), minus_one_not_contained.
Qed.

Lemma stateForSingleDimension_unknown_primary (h : PartitionHealthData)
  (mergedStates : list PartitionState -> PartitionState)
  (e0 e1 : PartitionHealthDimension) (dimensionIdx : Z) (dimensionKey : string) :
  env_dimensions h = [e0; e1] ->
  (if env_isRangeDataInverted h then 1 - dimensionIdx else dimensionIdx) = 0 ->
  Forall (fun r => 0 <= idx (start r)) (env_ranges h) ->
  ~ In dimensionKey (partitionKeys e0) ->
  stateForSingleDimension h mergedStates dimensionIdx dimensionKey None = Ok MISSING.
Proof.
  intros Hd Hi Hpos Hn.
  rewrite (stateForSingleDimension_primary _ _ _ _ _ _ Hd Hi).
  now rewrite (indexOf_notIn _ _ Hn), minus_one_not_contained.
Qed.

Lemma stateForSingleDimension_unknown_secondary (h : PartitionHealthData)
  (mergedStates : list PartitionState -> PartitionState)
  (e0 e1 : PartitionHealthDimension) (dimensionIdx : Z) (dimensionKey : string) :
  env_dimensions h = [e0; e1] ->
  (if env_isRangeDataInverted h then 1 - dimensionIdx else dimensionIdx) = 1 ->
  (forall r, In r (env_ranges h) ->
     exists subs, subranges r = Some subs /\
                  Forall (fun sr => 0 <= idx (start sr)) subs) ->
  env_ranges h <> [] ->
  ~ In dimensionKey (partitionKeys e1) ->
  stateForSingleDimension h mergedStates dimensionIdx dimensionKey None = Ok MISSING.
Proof.
  intros Hd Hi Hsub Hne Hn.
  rewrite (stateForSingleDimension_secondary h mergedStates e0 e1 _ _ None Hd);
    [| intros r Hr; destruct (Hsub r Hr) as (subs & -> & _); discriminate | exact Hi].
  rewrite (indexOf_notIn _ _ Hn).
  assert (HM : matching h (-1) = []).
  { apply filter_nil_none; intros r Hr; unfold coversSecondary.
    destruct (Hsub r Hr) as (subs & -> & Hpos).
    now rewrite find_existsb, minus_one_not_contained. }
  cbn zeta; rewrite HM; cbn [List.length].
  destruct (env_ranges h); [congruence | reflexivity].
Qed.

(** ** The cache *)

Lemma path_eqb_spec (p q : list string) : path_eqb p q = true <-> p = q.
Proof.
  revert q; induction p as [|x p IH]; intros [|y q]; cbn; split;
    try (reflexivity || discriminate).
  - rewrite andb_true_iff, String.eqb_eq, IH; intros [-> ->]; reflexivity.
  - intros E; inversion E; subst.
    rewrite andb_true_iff, String.eqb_eq, IH; auto.
Qed.

Lemma sameKey_spec (a b : AssetKey) : sameKey a b = true <-> a = b.
Proof.
  unfold sameKey; rewrite path_eqb_spec.
  destruct a as [p], b as [q]; cbn; split; [intros -> | intros E; inversion E]; reflexivity.
Qed.

Lemma sameKey_refl (a : AssetKey) : sameKey a a = true.
Proof. now apply sameKey_spec. Qed.

Lemma sameKey_neq (a b : AssetKey) : a <> b -> sameKey a b = false.
Proof.
  intros N; destruct (sameKey a b) eqn:E; [| reflexivity].
  apply sameKey_spec in E; contradiction.
Qed.

Lemma build_assetKey (isTs : PartitionHealthDimension -> bool)
  (data : AssetNodeOrError) (k : AssetKey) (l : PartitionHealthData) :
  buildPartitionHealthData isTs data k = Ok l -> assetKey l = k.
Proof.
  unfold buildPartitionHealthData.
  destruct (addIndexes _ _); cbn [bind]; [| discriminate].
  intros H; inversion H; reflexivity.
Qed.

Lemma NoDup_snoc {A : Type} (l : list A) (x : A) :
  NoDup l -> ~ In x l -> NoDup (l ++ [x]).
Proof.
  induction 1 as [|y l Hy Hl IH]; intros Hx; cbn.
  - constructor; [intros [] | constructor].
  - constructor.
    + rewrite in_app_iff; intros [H | [-> | []]]; [contradiction |].
      apply Hx; now left.
    + apply IH; intros H; apply Hx; now right.
Qed.

(** Dropping entries keeps the stored keys distinct. *)
Lemma filter_keeps_unique (keep : Entry -> bool) (res : list Entry) :
  NoDup (map entryKey res) -> NoDup (map entryKey (filter keep res)).
Proof.
  intros Hnd; induction res as [|r res IH]; cbn in *; [constructor |].
  apply NoDup_cons_iff in Hnd as [Hr Hres].
  destruct (keep r); cbn; [| now apply IH].
  apply NoDup_cons_iff; split; [| now apply IH].
  intros Hin; apply Hr.
  apply in_map_iff in Hin as (r' & E & Hr').
  apply filter_In in Hr' as [Hr' _].
  apply in_map_iff; exists r'; split; assumption.
Qed.

Lemma upsert_keys (l : PartitionHealthData) (f : Fetch) (res : list Entry) :
  assetKey l = loadKey f ->
  NoDup (map entryKey res) -> NoDup (map entryKey (upsert l f res)).
Proof.
  intros Hk Hnd; unfold upsert; rewrite map_app; cbn [map].
  apply NoDup_snoc; [now apply filter_keeps_unique |].
  unfold entryKey at 1; cbn [loaded]; rewrite Hk.
  rewrite in_map_iff; intros (r & E & Hr).
  apply filter_In in Hr as [_ Hr].
  unfold entryKey in E; rewrite E, sameKey_refl in Hr; discriminate.
Qed.

(** The entries stored for the key of a completed fetch: the new one alone,
    whatever was stored before. *)
Lemma upsert_own_key (l : PartitionHealthData) (f : Fetch) (res : list Entry) :
  assetKey l = loadKey f ->
  filter (fun r => sameKey (entryKey r) (loadKey f)) (upsert l f res)
  = [{| loaded := l; fetchedAt := hint f |}].
Proof.
  intros Hk; unfold upsert; rewrite filter_app; cbn [filter].
  unfold entryKey at 2; cbn [loaded]; rewrite Hk, sameKey_refl.
  replace (filter _ (filter _ res)) with (@nil Entry); [reflexivity |].
  symmetry; apply filter_nil_none; intros r Hr.
  apply filter_In in Hr as [_ Hr]; unfold entryKey.
  now destruct (sameKey (assetKey (loaded r)) (loadKey f)).
Qed.

(** Entries of other keys stay, in their order. *)
Lemma upsert_other_keys (l : PartitionHealthData) (f : Fetch) (res : list Entry)
  (k : AssetKey) :
  assetKey l = loadKey f -> k <> loadKey f ->
  filter (fun r => sameKey (entryKey r) k) (upsert l f res)
  = filter (fun r => sameKey (entryKey r) k) res.
Proof.
  intros Hk Hne; unfold upsert; rewrite filter_app; cbn [filter].
  unfold entryKey at 2; cbn [loaded]; rewrite Hk.
  rewrite (sameKey_neq (loadKey f) k) by congruence.
  rewrite app_nil_r.
  induction res as [|r res IH]; [reflexivity |]; cbn [filter].
  destruct (sameKey (assetKey (loaded r)) (loadKey f)) eqn:E1; cbn [negb filter].
  - apply sameKey_spec in E1; unfold entryKey at 2.
    rewrite E1, (sameKey_neq (loadKey f) k) by congruence; exact IH.
  - destruct (sameKey (entryKey r) k); [f_equal |]; exact IH.
Qed.

Lemma opt_key_eqb_refl (m : option AssetKey) : opt_key_eqb m m = true.
Proof. destruct m; cbn; [apply sameKey_refl | reflexivity]. Qed.

Lemma deps_changed_fresh (d : option (option AssetKey * string))
  (k : AssetKey) (a : string) :
  d <> Some (Some k, a) -> deps_changed d (Some k) a = true.
Proof.
  intros Hd; unfold deps_changed; destruct d as [[m a'] |]; [| reflexivity].
  apply negb_true_iff, not_true_is_false; intros H.
  apply andb_true_iff in H as [Hm Ha]; apply String.eqb_eq in Ha.
  destruct m as [k' |]; [| discriminate].
  cbn in Hm; apply sameKey_spec in Hm; subst; contradiction.
Qed.

Lemma deps_changed_same (k : AssetKey) (a : string) :
  deps_changed (Some (Some k, a)) (Some k) a = false.
Proof.
  unfold deps_changed, opt_key_eqb; now rewrite sameKey_refl, String.eqb_refl.
Qed.

(** ** C10 *)

Lemma render_result (assetKeys : list AssetKey) (a : string) (s : HookState) :
  result (fst (render assetKeys a s)) = result s.
Proof. reflexivity. Qed.

Lemma step_unique (isTs : PartitionHealthDimension -> bool) (s s' : HookState) :
  step isTs s s' ->
  NoDup (map entryKey (result s)) -> NoDup (map entryKey (result s')).
Proof.
  intros [assetKeys a s0 | i data s0 Hi | i s0 Hi] Hnd; cbn [result]; auto.
  unfold resolve.
  destruct (nth_error (pending s0) i) as [f |]; [| assumption].
  destruct (buildPartitionHealthData isTs data (loadKey f)) as [l | e] eqn:B;
    cbn [result]; [| assumption].
  apply upsert_keys; [| assumption].
  now apply build_assetKey in B.
Qed.

(** C10: in every state the hook reaches from its first render, whatever
    the renders, responses and failures on the way, the stored list holds
    at most one entry for each asset key; every step keeps it so, a
    completed fetch by dropping the entries of its key before it appends
    its own. *)
Theorem reachable_unique_keys (isTs : PartitionHealthDimension -> bool)
  (s : HookState) :
  reachable isTs s -> NoDup (map entryKey (result s)).
Proof.
  induction 1 as [| s s' _ IH Hstep].
  - constructor.
  - exact (step_unique _ _ _ Hstep IH).
Qed.

Lemma reachable_unique_keys_witness :
  reachable firstKeyDateLike
    (resolve firstKeyDateLike 0
       (AssetNode [region; date] (fullPayload [date; region]))
       (fst (render [keyA; keyB] "h1" init))) /\
  NoDup (map entryKey
    (result (resolve firstKeyDateLike 0
       (AssetNode [region; date] (fullPayload [date; region]))
       (fst (render [keyA; keyB] "h1" init))))).
Proof.
  assert (R : reachable firstKeyDateLike
    (resolve firstKeyDateLike 0
       (AssetNode [region; date] (fullPayload [date; region]))
       (fst (render [keyA; keyB] "h1" init)))).
  { eapply reachable_step; [eapply reachable_step; [apply reachable_init |] |].
    - apply step_render.
    - apply step_resolve; cbn; lia. }
  split; [exact R | exact (reachable_unique_keys _ _ R)].
Defined.

(** ** C5 *)

Lemma resolve_first (isTs : PartitionHealthDimension -> bool)
  (data : AssetNodeOrError) (res : list Entry)
  (d : option (option AssetKey * string)) (f : Fetch) (fs : list Fetch)
  (l : PartitionHealthData) :
  buildPartitionHealthData isTs data (loadKey f) = Ok l ->
  resolve isTs 0 data {| result := res; deps := d; pending := f :: fs |} =
  {| result := upsert l f res; deps := d; pending := fs |}.
Proof. intros B; unfold resolve; cbn; now rewrite B. Qed.

(** C5: from the empty cache, with two different keys A and B and one hint,
    the first request issues the fetch of A alone and returns the empty
    list; once the response for A is stored, the second request issues the
    fetch of B alone and returns the entry of A; once the response for B is
    stored, the third request issues nothing and returns both entries, and
    the stored list is as it was. *)
Theorem request_backlog_in_turn (isTs : PartitionHealthDimension -> bool)
  (A B : AssetKey) (hint0 : string) (dA dB : AssetNodeOrError)
  (lA lB : PartitionHealthData) :
  A <> B ->
  buildPartitionHealthData isTs dA A = Ok lA ->
  buildPartitionHealthData isTs dB B = Ok lB ->
  let eA := {| loaded := lA; fetchedAt := hint0 |} in
  let eB := {| loaded := lB; fetchedAt := hint0 |} in
  let s1 := fst (render [A; B] hint0 init) in
  let s2 := resolve isTs 0 dA s1 in
  let s3 := fst (render [A; B] hint0 s2) in
  let s4 := resolve isTs 0 dB s3 in
  let s5 := fst (render [A; B] hint0 s4) in
  (pending s1 = [{| loadKey := A; hint := hint0 |}] /\
   snd (render [A; B] hint0 init) = []) /\
  (result s2 = [eA] /\
   pending s3 = [{| loadKey := B; hint := hint0 |}] /\
   snd (render [A; B] hint0 s2) = [eA]) /\
  (result s4 = [eA; eB] /\
   pending s5 = [] /\
   snd (render [A; B] hint0 s4) = [eA; eB] /\
   result s5 = result s4).
Proof.
  intros Hne HA HB eA eB.
  assert (KA : assetKey lA = A) by (now apply build_assetKey in HA).
  assert (KB : assetKey lB = B) by (now apply build_assetKey in HB).
  assert (AB : sameKey A B = false) by (now apply sameKey_neq).
  assert (BA : sameKey B A = false) by (apply sameKey_neq; congruence).
  assert (E1 : fst (render [A; B] hint0 init) =
               {| result := []; deps := Some (Some A, hint0);
                  pending := [{| loadKey := A; hint := hint0 |}] |}) by reflexivity.
  rewrite E1; cbn zeta.
  rewrite (resolve_first isTs dA [] _ {| loadKey := A; hint := hint0 |} [] lA HA).
  assert (U1 : upsert lA {| loadKey := A; hint := hint0 |} [] = [eA]) by reflexivity.
  rewrite U1.
  assert (E3 : render [A; B] hint0
                 {| result := [eA]; deps := Some (Some A, hint0); pending := [] |} =
               ({| result := [eA]; deps := Some (Some B, hint0);
                   pending := [{| loadKey := B; hint := hint0 |}] |}, [eA])).
  { unfold render, missingKeyJSON, visible, matches, deps_changed, opt_key_eqb.
    cbn; rewrite KA, sameKey_refl, AB, String.eqb_refl; cbn.
    rewrite AB; reflexivity. }
  rewrite E3; cbn [fst snd].
  rewrite (resolve_first isTs dB [eA] _ {| loadKey := B; hint := hint0 |} [] lB HB).
  assert (U2 : upsert lB {| loadKey := B; hint := hint0 |} [eA] = [eA; eB]).
  { unfold upsert; cbn; rewrite KA, AB; reflexivity. }
  rewrite U2.
  assert (E5 : render [A; B] hint0
                 {| result := [eA; eB]; deps := Some (Some B, hint0); pending := [] |} =
               ({| result := [eA; eB]; deps := Some (None, hint0); pending := [] |},
                [eA; eB])).
  { unfold render, missingKeyJSON, visible, matches, deps_changed, opt_key_eqb.
    cbn; rewrite KA, KB, !sameKey_refl, AB, BA, String.eqb_refl; cbn.
    reflexivity. }
  rewrite E5; cbn.
  repeat split; reflexivity.
Qed.

Lemma request_backlog_in_turn_witness :
  keyA <> keyB /\
  exists lA lB,
    buildPartitionHealthData firstKeyDateLike
      (AssetNode [region; date] (fullPayload [date; region])) keyA = Ok lA /\
    buildPartitionHealthData firstKeyDateLike
      (AssetNode [region] (fullPayload [region])) keyB = Ok lB /\
    snd (render [keyA; keyB] "h1"
           (resolve firstKeyDateLike 0 (AssetNode [region] (fullPayload [region]))
              (fst (render [keyA; keyB] "h1"
                 (resolve firstKeyDateLike 0
                    (AssetNode [region; date] (fullPayload [date; region]))
                    (fst (render [keyA; keyB] "h1" init)))))))
    = [{| loaded := lA; fetchedAt := "h1" |}; {| loaded := lB; fetchedAt := "h1" |}].
Proof.
  assert (Hne : keyA <> keyB) by discriminate.
  split; [exact Hne |].
  destruct (buildPartitionHealthData firstKeyDateLike
              (AssetNode [region; date] (fullPayload [date; region])) keyA)
    as [lA | e] eqn:EA; [| vm_compute in EA; discriminate EA].
  destruct (buildPartitionHealthData firstKeyDateLike
              (AssetNode [region] (fullPayload [region])) keyB)
    as [lB | e] eqn:EB; [| vm_compute in EB; discriminate EB].
  exists lA, lB; split; [reflexivity |]; split; [reflexivity |].
  exact (proj1 (proj2 (proj2 (proj2 (proj2
    (request_backlog_in_turn firstKeyDateLike keyA keyB "h1" _ _ lA lB Hne EA EB)))))).
Defined.

(** ** C6 *)

Lemma visible_single (res : list Entry) (A : AssetKey) :
  visible res [A] = filter (fun r => sameKey (entryKey r) A) res.
Proof.
  unfold visible; apply filter_ext; intros r; cbn; apply orb_false_r.
Qed.

Lemma missing_when_hint_differs (res : list Entry) (e : Entry) (A : AssetKey)
  (h2 : string) :
  filter (fun r => sameKey (entryKey r) A) res = [e] ->
  fetchedAt e <> h2 ->
  missingKeyJSON res [A] h2 = Some A.
Proof.
  intros Hf Hh; unfold missingKeyJSON; cbn [find].
  replace (existsb (matches A h2) res) with false; [reflexivity |].
  symmetry; destruct (existsb (matches A h2) res) eqn:Ex; [| reflexivity].
  apply existsb_exists in Ex as (r & Hr & Hm).
  unfold matches in Hm; apply andb_true_iff in Hm as [Hk Hm].
  assert (Hin : In r (filter (fun r => sameKey (entryKey r) A) res))
    by (apply filter_In; split; assumption).
  rewrite Hf in Hin; destruct Hin as [<- | []].
  apply String.eqb_eq in Hm; contradiction.
Qed.

Lemma renders_settled (n : nat) (res : list Entry) (fs : list Fetch)
  (e : Entry) (A : AssetKey) (h2 : string) :
  filter (fun r => sameKey (entryKey r) A) res = [e] ->
  fetchedAt e <> h2 ->
  renders n [A] h2 {| result := res; deps := Some (Some A, h2); pending := fs |} =
  ({| result := res; deps := Some (Some A, h2); pending := fs |}, repeat [e] n).
Proof.
  intros Hf Hh; induction n as [|n IH]; [reflexivity |].
  cbn [renders]; unfold render at 1; cbn [result deps pending].
  rewrite (missing_when_hint_differs res e A h2 Hf Hh).
  unfold deps_changed, opt_key_eqb.
  rewrite sameKey_refl, String.eqb_refl; cbn [andb negb].
  rewrite app_nil_r, IH, visible_single, Hf; reflexivity.
Qed.

(** C6, as the code has it: let the stored list hold for A the one entry
    [e], tagged h1, and let requests for [A] come with another hint h2,
    one after the other, no response arriving in between.  Every one of
    them returns the entry [e] with its tag h1, and the stored list stays
    as it was.  A fetch of A under h2 is issued, once, by the first of
    them, when the missing key and hint it presents differ from those the
    previous render left in the dependencies of the hook; when they are the
    same, as after a request under h2 whose fetch has failed, no fetch is
    issued. *)
Theorem stale_entry_served_during_refresh (s : HookState) (e : Entry)
  (A : AssetKey) (h1 h2 : string) (n : nat) :
  filter (fun r => sameKey (entryKey r) A) (result s) = [e] ->
  fetchedAt e = h1 ->
  h1 <> h2 ->
  result (fst (renders (S n) [A] h2 s)) = result s /\
  snd (renders (S n) [A] h2 s) = repeat [e] (S n) /\
  (deps s <> Some (Some A, h2) ->
   pending (fst (renders (S n) [A] h2 s))
   = (pending s ++ [{| loadKey := A; hint := h2 |}])%list) /\
  (deps s = Some (Some A, h2) ->
   pending (fst (renders (S n) [A] h2 s)) = pending s).
Proof.
  intros Hf Ht Hne.
  assert (Hh : fetchedAt e <> h2) by congruence.
  assert (E1 : render [A] h2 s =
    ({| result := result s;
        deps := Some (Some A, h2);
        pending := pending s ++
                   (if deps_changed (deps s) (Some A) h2
                    then [{| loadKey := A; hint := h2 |}] else []) |}, [e])).
  { unfold render.
    now rewrite (missing_when_hint_differs _ e A h2 Hf Hh), visible_single, Hf. }
  cbn [renders]; rewrite E1.
  rewrite (renders_settled n _ _ e A h2 Hf Hh); cbn [fst snd result pending].
  split; [reflexivity |]; split; [reflexivity |]; split; intros Hd.
  - now rewrite (deps_changed_fresh _ _ _ Hd).
  - rewrite Hd, deps_changed_same; apply app_nil_r.
Qed.

Lemma stale_entry_served_during_refresh_witness :
  exists lA,
    buildPartitionHealthData firstKeyDateLike
      (AssetNode [region] (fullPayload [region])) keyA = Ok lA /\
    "h1" <> "h2" /\
    snd (renders 3 [keyA] "h2"
           (resolve firstKeyDateLike 0 (AssetNode [region] (fullPayload [region]))
              (fst (render [keyA] "h1" init))))
    = repeat [{| loaded := lA; fetchedAt := "h1" |}] 3 /\
    pending (fst (renders 3 [keyA] "h2"
           (resolve firstKeyDateLike 0 (AssetNode [region] (fullPayload [region]))
              (fst (render [keyA] "h1" init)))))
    = [{| loadKey := keyA; hint := "h2" |}].
Proof.
  destruct (buildPartitionHealthData firstKeyDateLike
              (AssetNode [region] (fullPayload [region])) keyA)
    as [lA | e] eqn:EA; [| vm_compute in EA; discriminate EA].
  exists lA; split; [reflexivity |].
  assert (Hne : "h1" <> "h2") by discriminate.
  split; [exact Hne |].
  assert (Es : resolve firstKeyDateLike 0 (AssetNode [region] (fullPayload [region]))
                 (fst (render [keyA] "h1" init)) =
               {| result := [{| loaded := lA; fetchedAt := "h1" |}];
                  deps := Some (Some keyA, "h1"); pending := [] |}).
  { change (fst (render [keyA] "h1" init))
      with {| result := []; deps := Some (Some keyA, "h1");
              pending := [{| loadKey := keyA; hint := "h1" |}] |}.
    now rewrite (resolve_first firstKeyDateLike _ [] _
                   {| loadKey := keyA; hint := "h1" |} [] lA EA). }
  rewrite Es.
  assert (Hf : filter (fun r => sameKey (entryKey r) keyA)
                 [{| loaded := lA; fetchedAt := "h1" |}]
               = [{| loaded := lA; fetchedAt := "h1" |}]).
  { cbn [filter]; unfold entryKey; cbn [loaded].
    now rewrite (build_assetKey _ _ _ _ EA), sameKey_refl. }
  destruct (stale_entry_served_during_refresh
    {| result := [{| loaded := lA; fetchedAt := "h1" |}];
       deps := Some (Some keyA, "h1"); pending := [] |}
    {| loaded := lA; fetchedAt := "h1" |} keyA "h1" "h2" 2 Hf eq_refl Hne)
    as (_ & Hout & Hfetch & _).
  split; [exact Hout |].
  apply Hfetch; discriminate.
Defined.

(** C6, as stated, fails in a state the hook reaches: A is loaded under
    h1, a request under h2 issues the fetch of A, and that fetch fails.  A
    is then cached with hint h1, nothing is pending, and requests for [A]
    with the different hint h2 trigger no fetch, however often they are
    repeated: the dependencies of the hook are those the first request under
    h2 left. *)
Lemma refetch_not_triggered_after_rejection :
  let cached :=
    resolve firstKeyDateLike 0 (AssetNode [region] (fullPayload [region]))
      (fst (render [keyA] "h1" init)) in
  let s := reject 0 (fst (render [keyA] "h2" cached)) in
  reachable firstKeyDateLike s /\
  map (fun r => (entryKey r, fetchedAt r)) (result s) = [(keyA, "h1")] /\
  pending s = [] /\
  pending (fst (render [keyA] "h2" s)) = [] /\
  pending (fst (renders 5 [keyA] "h2" s)) = [].
Proof.
  cbv zeta; split; [| repeat split].
  assert (R1 : reachable firstKeyDateLike (fst (render [keyA] "h1" init)))
    by (eapply reachable_step; [apply reachable_init | apply step_render]).
  assert (R2 : reachable firstKeyDateLike
                 (resolve firstKeyDateLike 0
                    (AssetNode [region] (fullPayload [region]))
                    (fst (render [keyA] "h1" init))))
    by (eapply reachable_step; [exact R1 | apply step_resolve; cbn; lia]).
  eapply reachable_step;
    [eapply reachable_step; [exact R2 | apply step_render] |].
  apply step_reject; cbn; lia.
Qed.

(** ** C2 *)

Lemma resolve_at (isTs : PartitionHealthDimension -> bool) (i : nat)
  (data : AssetNodeOrError) (s : HookState) (f : Fetch) (l : PartitionHealthData) :
  nth_error (pending s) i = Some f ->
  buildPartitionHealthData isTs data (loadKey f) = Ok l ->
  result (resolve isTs i data s) = upsert l f (result s).
Proof. intros Hn B; unfold resolve; now rewrite Hn, B. Qed.

(** C2, as the code has it: the response that arrives last is the one
    that stays.  When a pending fetch of a key completes with a payload
    that builds, the stored list holds for that key exactly the index built
    from this response, tagged with the hint under which this fetch was
    issued, whatever entry was stored for the key before and whichever
    fetch was issued first; the entries of all other keys are untouched.
    Under any other hint the key then counts as missing again; a request
    for it under such a hint issues a new fetch when the missing key and
    hint it presents differ from those the previous render left in the
    dependencies of the hook, and issues nothing when they are the same. *)
Theorem last_response_wins (isTs : PartitionHealthDimension -> bool)
  (s : HookState) (i : nat) (f : Fetch) (data : AssetNodeOrError)
  (l : PartitionHealthData) :
  nth_error (pending s) i = Some f ->
  buildPartitionHealthData isTs data (loadKey f) = Ok l ->
  filter (fun r => sameKey (entryKey r) (loadKey f))
         (result (resolve isTs i data s))
    = [{| loaded := l; fetchedAt := hint f |}] /\
  (forall k, k <> loadKey f ->
     filter (fun r => sameKey (entryKey r) k) (result (resolve isTs i data s))
     = filter (fun r => sameKey (entryKey r) k) (result s)) /\
  (forall h', h' <> hint f ->
     missingKeyJSON (result (resolve isTs i data s)) [loadKey f] h'
     = Some (loadKey f) /\
     (deps s <> Some (Some (loadKey f), h') ->
      pending (fst (render [loadKey f] h' (resolve isTs i data s)))
      = (pending (resolve isTs i data s)
         ++ [{| loadKey := loadKey f; hint := h' |}])%list) /\
     (deps s = Some (Some (loadKey f), h') ->
      pending (fst (render [loadKey f] h' (resolve isTs i data s)))
      = pending (resolve isTs i data s))).
Proof.
  intros Hn B.
  pose proof (build_assetKey _ _ _ _ B) as Hk.
  assert (Hd : deps (resolve isTs i data s) = deps s)
    by (unfold resolve; now rewrite Hn, B).
  split; [rewrite (resolve_at isTs i data s f l Hn B); now apply upsert_own_key |].
  split.
  - intros k Hne; rewrite (resolve_at isTs i data s f l Hn B).
    now apply upsert_other_keys.
  - intros h' Hh.
    assert (Hm : missingKeyJSON (result (resolve isTs i data s)) [loadKey f] h'
                 = Some (loadKey f)).
    { rewrite (resolve_at isTs i data s f l Hn B).
      apply (missing_when_hint_differs _ {| loaded := l; fetchedAt := hint f |}).
      - now apply upsert_own_key.
      - cbn; congruence. }
    split; [exact Hm |].
    unfold render; cbn [fst pending]; rewrite Hm, Hd; split; intros Hdeps.
    + now rewrite (deps_changed_fresh _ _ _ Hdeps).
    + rewrite Hdeps, deps_changed_same; apply app_nil_r.
Qed.

Lemma last_response_wins_witness :
  exists l,
    buildPartitionHealthData firstKeyDateLike
      (AssetNode [region] (MaterializedPartitions1D [])) keyA = Ok l /\
    nth_error
      (pending (resolve firstKeyDateLike 1 (AssetNode [region] (fullPayload [region]))
                  (fst (render [keyA] "h2" (fst (render [keyA] "h1" init))))))
      0 = Some {| loadKey := keyA; hint := "h1" |} /\
    map fetchedAt
      (result (resolve firstKeyDateLike 1 (AssetNode [region] (fullPayload [region]))
                 (fst (render [keyA] "h2" (fst (render [keyA] "h1" init))))))
    = ["h2"] /\
    filter (fun r => sameKey (entryKey r) keyA)
      (result (resolve firstKeyDateLike 0
                 (AssetNode [region] (MaterializedPartitions1D []))
                 (resolve firstKeyDateLike 1
                    (AssetNode [region] (fullPayload [region]))
                    (fst (render [keyA] "h2" (fst (render [keyA] "h1" init)))))))
    = [{| loaded := l; fetchedAt := "h1" |}].
Proof.
  destruct (buildPartitionHealthData firstKeyDateLike
              (AssetNode [region] (MaterializedPartitions1D [])) keyA)
    as [l | e] eqn:E; [| vm_compute in E; discriminate E].
  exists l; split; [reflexivity |]; split; [reflexivity |];
    split; [reflexivity |].
  exact (proj1 (last_response_wins firstKeyDateLike
                  (resolve firstKeyDateLike 1
                     (AssetNode [region] (fullPayload [region]))
                     (fst (render [keyA] "h2" (fst (render [keyA] "h1" init)))))
                  0 {| loadKey := keyA; hint := "h1" |}
                  (AssetNode [region] (MaterializedPartitions1D [])) l
                  eq_refl E)).
Defined.

(** C2, as stated, fails: two fetches of A are pending, the older issued
    under h1 and the newer under h2; the newer answers first, with the
    whole key space materialized, and is stored; the older answers after
    it, with nothing materialized, and replaces it.  The entry that stays
    is that of the older request, tagged h1. *)
Lemma stale_response_overwrites :
  let older := AssetNode [region] (MaterializedPartitions1D []) in
  let newer := AssetNode [region] (fullPayload [region]) in
  let s2 := fst (render [keyA] "h2" (fst (render [keyA] "h1" init))) in
  let s3 := resolve firstKeyDateLike 1 newer s2 in
  let s4 := resolve firstKeyDateLike 0 older s3 in
  pending s2 = [{| loadKey := keyA; hint := "h1" |};
                {| loadKey := keyA; hint := "h2" |}] /\
  map fetchedAt (result s3) = ["h2"] /\
  map (fun r => stateForKey (loaded r) ["eu"]) (result s3) = [Ok SUCCESS] /\
  pending s4 = [] /\
  map fetchedAt (result s4) = ["h1"] /\
  map (fun r => stateForKey (loaded r) ["eu"]) (result s4) = [Ok MISSING].
Proof. repeat split. Qed.

(** * Further properties *)

(** ** Who raises, and when *)

Lemma prop_of_inside {A : Type} (l : list A) (i : nat) :
  (i < List.length l)%nat -> exists a, prop_of l i = Ok a.
Proof.
  intros H; unfold prop_of, at_.
  destruct (nth_error l i) as [a |] eqn:E; [now exists a |].
  apply nth_error_None in E; lia.
Qed.

Lemma prop_of_outside {A : Type} (l : list A) (i : nat) :
  (List.length l <= i)%nat -> prop_of l i = Throw TypeError.
Proof.
  intros H; unfold prop_of, at_.
  now rewrite (proj2 (nth_error_None l i) H).
Qed.

Lemma dIndexes_from (dims : list PartitionHealthDimension) (ks : list string)
  (i : nat) :
  (i <= List.length dims)%nat ->
  ((i + List.length ks <= List.length dims)%nat ->
   exists l,
     mapiM_from (fun i k => dim <- prop_of dims i ;;
                            Ok (indexOf (partitionKeys dim) k)) i ks = Ok l) /\
  ((List.length dims < i + List.length ks)%nat ->
   mapiM_from (fun i k => dim <- prop_of dims i ;;
                          Ok (indexOf (partitionKeys dim) k)) i ks
   = Throw TypeError).
Proof.
  revert i; induction ks as [|k ks IH]; intros i Hi; cbn [mapiM_from List.length].
  - split; [intros _; now exists [] | lia].
  - destruct (Nat.eq_dec i (List.length dims)) as [E | N].
    + rewrite (prop_of_outside dims i) by lia; cbn [bind].
      split; [lia | reflexivity].
    + destruct (prop_of_inside dims i) as (d & Ed); [lia |].
      rewrite Ed; cbn [bind].
      destruct (IH (S i)) as [Hok Hthrow]; [lia |].
      split; intros H.
      * destruct Hok as (l & El); [lia |]; rewrite El; cbn [bind]; eauto.
      * rewrite Hthrow by lia; reflexivity.
Qed.

Lemma stateForKeyRangeOrdering_arity (h : PartitionHealthData) (ks : list string) :
  ((List.length ks <= List.length (env_dimensions h))%nat ->
   stateForKeyRangeOrdering h ks = Ok SUCCESS \/
   stateForKeyRangeOrdering h ks = Ok MISSING) /\
  ((List.length (env_dimensions h) < List.length ks)%nat ->
   stateForKeyRangeOrdering h ks = Throw TypeError).
Proof.
  destruct (dIndexes_from (env_dimensions h) ks 0) as [Hok Hthrow]; [lia |].
  unfold stateForKeyRangeOrdering, mapiM; split; intros H.
  - destruct Hok as (l & El); [exact H |]; rewrite El; cbn [bind].
    destruct (find _ (env_ranges h)) as [r |]; [| now right].
    destruct (subranges r) as [subs |]; [| now left].
    destruct (find _ subs); [now left | now right].
  - rewrite Hthrow by exact H; reflexivity.
Qed.

(** X1: [stateForKey] raises exactly when it is given more keys than the
    index has dimensions, and what it raises is the TypeError of reading
    [dimensions[idx].partitionKeys]; with at most as many keys it answers
    SUCCESS or MISSING, never SUCCESS_MISSING. *)
Theorem stateForKey_raises_iff_too_many_keys (h : PartitionHealthData)
  (dimensionKeys : list string) :
  ((List.length dimensionKeys <= List.length (env_dimensions h))%nat ->
   stateForKey h dimensionKeys = Ok SUCCESS \/
   stateForKey h dimensionKeys = Ok MISSING) /\
  ((List.length (env_dimensions h) < List.length dimensionKeys)%nat ->
   stateForKey h dimensionKeys = Throw TypeError).
Proof.
  unfold stateForKey.
  destruct (env_isRangeDataInverted h).
  - rewrite <- (length_rev dimensionKeys).
    apply stateForKeyRangeOrdering_arity.
  - apply stateForKeyRangeOrdering_arity.
Qed.

Lemma build_one (isTs : PartitionHealthDimension -> bool)
  (d0 : PartitionHealthDimension) (mp : MaterializedPartitions)
  (loadKey : AssetKey) (h : PartitionHealthData) :
  buildPartitionHealthData isTs (AssetNode [d0] mp) loadKey = Ok h ->
  env_isRangeDataInverted h = false /\
  env_dimensions h = [d0] /\
  addIndexes [d0] mp = Ok (env_ranges h).
Proof.
  unfold buildPartitionHealthData; cbn [dims_of payload_of isRangeDataInverted range_dimensions].
  destruct (addIndexes _ mp) as [rs | e] eqn:E; cbn [bind]; [| discriminate].
  intros H; inversion H; subst; cbn; auto.
Qed.

Lemma build_ok_2D (isTs : PartitionHealthDimension -> bool)
  (d0 d1 : PartitionHealthDimension) (ranges : list MaterializedPartitionRange2D)
  (loadKey : AssetKey) :
  exists h,
    buildPartitionHealthData isTs
      (AssetNode [d0; d1] (MaterializedPartitions2D ranges)) loadKey = Ok h.
Proof.
  unfold buildPartitionHealthData; cbn [dims_of payload_of addIndexes].
  assert (T : forall e0 e1, exists rs, mapM (decode2D [e0; e1]) ranges = Ok rs).
  { intros e0 e1.
    destruct (@mapM_total _ _ (decode2D [e0; e1]) ranges) as (rs & E & _); eauto.
    intros x _; destruct (decode2D_two e0 e1 [] x) as (r & subs & H & _); eauto. }
  cbn [range_dimensions]; destruct (isTs d1);
    match goal with
    | |- context [mapM (decode2D [?a; ?b]) ranges] =>
        destruct (T a b) as (rs & ->)
    end; cbn [bind]; eauto.
Qed.

Lemma find_contains_None (rs : list Range) : find (contains None) rs = None.
Proof. induction rs as [|r rs IH]; [reflexivity | exact IH]. Qed.

(** X2: an index built for two dimensions from a 2D payload answers
    MISSING to [stateForKey] whenever fewer than two keys are given,
    whatever the key and whatever the ranges: a primary range of such an
    index always has a secondary list, and [dIndexes[1]] is undefined. *)
Theorem stateForKey_short_tuple_2D (isTs : PartitionHealthDimension -> bool)
  (d0 d1 : PartitionHealthDimension) (ranges : list MaterializedPartitionRange2D)
  (loadKey : AssetKey) :
  exists h,
    buildPartitionHealthData isTs
      (AssetNode [d0; d1] (MaterializedPartitions2D ranges)) loadKey = Ok h /\
    stateForKey h [] = Ok MISSING /\
    forall k, stateForKey h [k] = Ok MISSING.
Proof.
  destruct (build_ok_2D isTs d0 d1 ranges loadKey) as (h & Hb).
  exists h; split; [exact Hb |].
  destruct (build_two _ _ _ _ _ _ Hb) as (_ & _ & Hinv & Hdims & Hadd).
  pose proof (addIndexes_2D_subranges _ _ _ Hadd) as Hsub.
  split.
  - unfold stateForKey; destruct (env_isRangeDataInverted h); cbn [rev app];
      unfold stateForKeyRangeOrdering, mapiM; cbn [mapiM_from bind at_ nth_error];
      now rewrite find_contains_None.
  - intros k; unfold stateForKey.
    assert (E : forall a, stateForKeyRangeOrdering h [a] = Ok MISSING).
    { intros a.
      destruct (isTs d1);
        rewrite (stateForKeyRangeOrdering_single _ _ _ _ Hdims);
        (destruct (find _ (env_ranges h)) as [r |] eqn:F; [| reflexivity]);
        apply find_some in F as [Hin _]; specialize (Hsub r Hin);
        (destruct (subranges r); [reflexivity | congruence]). }
    destruct (env_isRangeDataInverted h); cbn [rev app]; apply E.
Qed.

Lemma dimension_out_of_range (h : PartitionHealthData)
  (mergedStates : list PartitionState -> PartitionState) (dimensionIdx : Z)
  (dimensionKey : string) (others : option (list string)) :
  dimensionIdx <> 0 -> dimensionIdx <> 1 ->
  stateForSingleDimension h mergedStates dimensionIdx dimensionKey others
  = Throw thirdDimension.
Proof.
  intros H0 H1; unfold stateForSingleDimension.
  destruct (env_isRangeDataInverted h).
  - replace (1 - dimensionIdx =? 0) with false by (symmetry; apply Z.eqb_neq; lia).
    replace (1 - dimensionIdx =? 1) with false by (symmetry; apply Z.eqb_neq; lia).
    reflexivity.
  - replace (dimensionIdx =? 0) with false by (symmetry; apply Z.eqb_neq; lia).
    replace (dimensionIdx =? 1) with false by (symmetry; apply Z.eqb_neq; lia).
    reflexivity.
Qed.

(** X3: on an index built for two dimensions from a 2D payload,
    [stateForSingleDimension] returns a state for the dimension indexes 0
    and 1, with or without a selection, and raises its third-dimension
    error for every other index, negative ones included; it raises nothing
    else. *)
Theorem stateForSingleDimension_raises_iff
  (isTs : PartitionHealthDimension -> bool)
  (mergedStates : list PartitionState -> PartitionState)
  (d0 d1 : PartitionHealthDimension) (ranges : list MaterializedPartitionRange2D)
  (loadKey : AssetKey) :
  exists h,
    buildPartitionHealthData isTs
      (AssetNode [d0; d1] (MaterializedPartitions2D ranges)) loadKey = Ok h /\
    forall dimensionIdx dimensionKey others,
      (dimensionIdx = 0 \/ dimensionIdx = 1 ->
       exists st,
         stateForSingleDimension h mergedStates dimensionIdx dimensionKey others
         = Ok st) /\
      (dimensionIdx <> 0 -> dimensionIdx <> 1 ->
       stateForSingleDimension h mergedStates dimensionIdx dimensionKey others
       = Throw thirdDimension).
Proof.
  destruct (build_ok_2D isTs d0 d1 ranges loadKey) as (h & Hb).
  exists h; split; [exact Hb |].
  destruct (build_two _ _ _ _ _ _ Hb) as (_ & _ & Hinv & Hdims & Hadd).
  pose proof (addIndexes_2D_subranges _ _ _ Hadd) as Hsub.
  intros d k others; split; [| now apply dimension_out_of_range].
  intros Hd.
  assert (Hint : (if env_isRangeDataInverted h then 1 - d else d) = 0 \/
                 (if env_isRangeDataInverted h then 1 - d else d) = 1)
    by (destruct (env_isRangeDataInverted h); lia).
  set (e0 := if isTs d1 then d1 else d0).
  set (e1 := if isTs d1 then d0 else d1).
  assert (Hd' : env_dimensions h = [e0; e1])
    by (subst e0 e1; rewrite Hdims; destruct (isTs d1); reflexivity).
  destruct Hint as [Hi | Hi].
  - destruct others as [ks |].
    + rewrite (stateForSingleDimension_primary_selection h mergedStates e0 e1 d k ks Hd' Hi).
      erewrite mapM_ok;
        [| intros o _; apply (stateForKeyRangeOrdering_pair h e0 e1 k o Hd')].
      cbn [bind]; eauto.
    + rewrite (stateForSingleDimension_primary h mergedStates e0 e1 d k Hd' Hi); eauto.
  - rewrite (stateForSingleDimension_secondary h mergedStates e0 e1 d k others Hd' Hsub Hi).
    cbv zeta; eauto.
Qed.

(** X4: on an index built for a single dimension,
    [stateForSingleDimension 0 k] is [stateForKey [k]] whatever selection
    is passed along, and dimension index 1 raises a TypeError, not the
    third-dimension error: the branch of lines 112-134 reads
    [dimensions[1].partitionKeys]. *)
Theorem stateForSingleDimension_1D (isTs : PartitionHealthDimension -> bool)
  (mergedStates : list PartitionState -> PartitionState)
  (d0 : PartitionHealthDimension) (mp : MaterializedPartitions)
  (loadKey : AssetKey) (h : PartitionHealthData) :
  buildPartitionHealthData isTs (AssetNode [d0] mp) loadKey = Ok h ->
  forall k others,
    stateForSingleDimension h mergedStates 0 k others = stateForKey h [k] /\
    stateForSingleDimension h mergedStates 1 k others = Throw TypeError.
Proof.
  intros Hb k others.
  destruct (build_one _ _ _ _ _ Hb) as (Hinv & Hdims & _).
  unfold stateForSingleDimension, stateForKey; rewrite Hinv, Hdims.
  cbn [Z.eqb List.length Nat.eqb andb Pos.eqb]; split; [reflexivity |].
  destruct others as [ks |]; cbn [bind].
  - rewrite (mapM_ok _ (indexOf (partitionKeys d0))) by reflexivity.
    reflexivity.
  - reflexivity.
Qed.

Lemma stateForSingleDimension_1D_witness :
  exists h,
    buildPartitionHealthData firstKeyDateLike
      (AssetNode [region] (fullPayload [region])) keyA = Ok h /\
    stateForSingleDimension h mergedStatesRule 0 "eu" (Some ["x"; "y"])
      = stateForKey h ["eu"] /\
    stateForSingleDimension h mergedStatesRule 1 "eu" None = Throw TypeError.
Proof.
  built h E.
  exists h; split; [reflexivity |].
  split.
  - exact (proj1 (stateForSingleDimension_1D firstKeyDateLike mergedStatesRule
                    region (fullPayload [region]) keyA h E "eu" (Some ["x"; "y"]))).
  - exact (proj2 (stateForSingleDimension_1D firstKeyDateLike mergedStatesRule
                    region (fullPayload [region]) keyA h E "eu" None)).
Defined.

Lemma mapM_raises {A B : Type} (f : A -> outcome B) (l : list A) (e : exn) :
  (forall x, In x l -> (exists y, f x = Ok y) \/ f x = Throw e) ->
  (exists x, In x l /\ f x = Throw e) ->
  mapM f l = Throw e.
Proof.
  induction l as [|x l IH]; intros Hall (z & Hz & Ez); [contradiction |].
  cbn [mapM].
  destruct (Hall x (or_introl eq_refl)) as [(y & Ey) | Ex].
  - rewrite Ey; cbn [bind].
    destruct Hz as [<- | Hz]; [congruence |].
    rewrite IH; [reflexivity | intros; apply Hall; now right | eauto].
  - now rewrite Ex.
Qed.

Lemma decode2D_no_dimension (range : MaterializedPartitionRange2D) :
  decode2D [] range = Throw TypeError.
Proof.
  unfold decode2D; destruct (secondaryDimRanges range); reflexivity.
Qed.

Lemma decode2D_one_dimension (d0 : PartitionHealthDimension)
  (range : MaterializedPartitionRange2D) :
  (hasSecondary range = false -> exists r, decode2D [d0] range = Ok r) /\
  (hasSecondary range = true -> decode2D [d0] range = Throw TypeError).
Proof.
  unfold decode2D, hasSecondary.
  destruct (secondaryDimRanges range); split; intros H; try discriminate.
  - cbn; eauto.
  - reflexivity.
Qed.

Lemma addIndexes_raises_iff (dims : list PartitionHealthDimension)
  (mp : MaterializedPartitions) :
  ((dimensionsRead mp <= List.length dims)%nat ->
   exists rs, addIndexes dims mp = Ok rs /\ List.length rs = payloadLength mp) /\
  ((List.length dims < dimensionsRead mp)%nat ->
   addIndexes dims mp = Throw TypeError).
Proof.
  destruct mp as [ranges | ranges]; cbn [addIndexes payloadLength].
  - (* 1D *)
    destruct ranges as [|x ranges]; [split; [now exists [] | cbn; lia] |].
    cbn [dimensionsRead]; destruct dims as [|d0 dims]; split; intros H;
      cbn [List.length] in H; try lia.
    + reflexivity.
    + rewrite (mapM_ok (decode1D (d0 :: dims) 0) (fun range =>
        {| start := {| key := r_start range;
                       idx := indexOf (partitionKeys d0) (r_start range) |};
           end_ := {| key := r_end range;
                      idx := indexOf (partitionKeys d0) (r_end range) |};
           value := SUCCESS; subranges := None |}))
        by (intros; now apply decode1D_at).
      eexists; split; [reflexivity | apply length_map].
  - (* 2D *)
    destruct ranges as [|x ranges]; [split; [now exists [] | cbn; lia] |].
    cbn [dimensionsRead].
    destruct dims as [|d0 [|d1 rest]].
    + split; intros H; [destruct (existsb _ _); cbn in H; lia |].
      cbn [mapM]; now rewrite decode2D_no_dimension.
    + destruct (existsb hasSecondary (x :: ranges)) eqn:Ex; split; intros H;
        cbn [List.length] in H; try lia.
      * apply mapM_raises.
        -- intros r _; destruct (hasSecondary r) eqn:Hr.
           ++ right; now apply decode2D_one_dimension.
           ++ left; now apply decode2D_one_dimension.
        -- apply existsb_exists in Ex as (r & Hin & Hr).
           exists r; split; [exact Hin | now apply decode2D_one_dimension].
      * destruct (@mapM_total _ _ (decode2D [d0]) (x :: ranges))
          as (rs & E & Hlen & _); [| eauto].
        intros r Hin; apply decode2D_one_dimension.
        destruct (hasSecondary r) eqn:Hr; [| reflexivity].
        assert (existsb hasSecondary (x :: ranges) = true)
          by (apply existsb_exists; eauto).
        congruence.
    + split; intros H; [| destruct (existsb _ _); cbn [List.length] in H; lia].
      destruct (@mapM_total _ _ (decode2D (d0 :: d1 :: rest)) (x :: ranges))
        as (rs & E & Hlen & _); [| eauto].
      intros r _; destruct (decode2D_two d0 d1 rest r) as (y & subs & Hy & _); eauto.
Qed.

Lemma range_dimensions_length (isTs : PartitionHealthDimension -> bool)
  (dims : list PartitionHealthDimension) :
  List.length (range_dimensions isTs dims) = List.length dims.
Proof.
  destruct dims as [|d0 [|d1 [|d2 dims]]]; cbn; try reflexivity.
  destruct (isTs d1); reflexivity.
Qed.

(** X5: [buildPartitionHealthData] raises exactly when the payload makes
    the decoder read a dimension the response does not declare (a range
    with no dimension at all, a secondary range with fewer than two
    dimensions); it then raises a TypeError.  Otherwise it returns an index
    with one primary range per range of the payload, whose [dimensions]
    field is the declared list.  A response that is not an asset node
    builds the index without dimensions and without ranges. *)
Theorem build_raises_iff_dimension_missing
  (isTs : PartitionHealthDimension -> bool) (data : AssetNodeOrError)
  (loadKey : AssetKey) :
  ((dimensionsRead (payload_of data) <= List.length (dims_of data))%nat ->
   exists h,
     buildPartitionHealthData isTs data loadKey = Ok h /\
     List.length (env_ranges h) = payloadLength (payload_of data) /\
     dimensions h = dims_of data) /\
  ((List.length (dims_of data) < dimensionsRead (payload_of data))%nat ->
   buildPartitionHealthData isTs data loadKey = Throw TypeError).
Proof.
  unfold buildPartitionHealthData.
  destruct (addIndexes_raises_iff (range_dimensions isTs (dims_of data))
              (payload_of data)) as [Hok Hthrow].
  rewrite range_dimensions_length in Hok, Hthrow.
  split; intros H.
  - destruct (Hok H) as (rs & E & Hlen); rewrite E; cbn [bind].
    eexists; split; [reflexivity |]; cbn; auto.
  - now rewrite (Hthrow H).
Qed.

(** ** What the decoder keeps *)

Lemma mapM_inverse {A B : Type} (f : A -> outcome B) (g : B -> A)
  (l : list A) (l' : list B) :
  (forall x y, f x = Ok y -> g y = x) -> mapM f l = Ok l' -> map g l' = l.
Proof.
  intros Hg; revert l'; induction l as [|x l IH]; intros l' E; cbn in E.
  - now inversion E.
  - destruct (f x) as [y | e] eqn:Fx; cbn in E; [| discriminate].
    destruct (mapM f l) as [ys | e] eqn:Fl; cbn in E; [| discriminate].
    inversion E; subst; cbn; f_equal; auto.
Qed.

Lemma decode1D_erase (dims : list PartitionHealthDimension) (n : nat)
  (range : MaterializedPartitionRange1D) (r : Range) :
  decode1D dims n range = Ok r -> erase1D r = range /\ flat r.
Proof.
  unfold decode1D, bound_in.
  destruct (prop_of dims n); cbn [bind]; [| discriminate].
  intros H; inversion H; subst; destruct range; split; [reflexivity | now split].
Qed.

Lemma classify_not_MISSING (dims : list PartitionHealthDimension)
  (subs : list Range) (v : PartitionState) :
  classify dims subs = Ok v -> v <> MISSING.
Proof.
  unfold classify.
  destruct subs as [|s0 [|s1 subs]]; try (intros H; inversion H; discriminate).
  destruct (idx (start s0) =? 0); [| intros H; inversion H; discriminate].
  destruct (prop_of dims 1); cbn [bind]; [| discriminate].
  destruct (_ =? _); intros H; inversion H; discriminate.
Qed.

Lemma decode2D_erase (dims : list PartitionHealthDimension)
  (range : MaterializedPartitionRange2D) (r : Range) :
  decode2D dims range = Ok r -> erase2D r = range /\ decodedShape r.
Proof.
  unfold decode2D.
  destruct (mapM (decode1D dims 1) (secondaryDimRanges range)) as [subs | e] eqn:Es;
    cbn [bind]; [| discriminate].
  destruct (classify dims subs) as [v | e] eqn:Ec; cbn [bind]; [| discriminate].
  unfold bound_in; destruct (prop_of dims 0); cbn [bind]; [| discriminate].
  intros H; inversion H; subst; clear H; split.
  - unfold erase2D; cbn.
    assert (Hg : forall x y, decode1D dims 1 x = Ok y -> erase1D y = x)
      by (intros x y Hxy; now apply decode1D_erase in Hxy).
    rewrite (mapM_inverse (decode1D dims 1) erase1D _ _ Hg Es).
    now destruct range.
  - unfold decodedShape; cbn; split; [now apply classify_not_MISSING in Ec |].
    eapply mapM_Forall; [| exact Es].
    intros x y _ Hxy; now apply decode1D_erase in Hxy.
Qed.

(** X6: decoding loses nothing of the payload.  Whenever [addIndexes]
    returns, taking the boundary keys back out of the decoded ranges, in
    their order, gives the ranges of the payload. *)
Theorem addIndexes_keeps_payload (dims : list PartitionHealthDimension)
  (mp : MaterializedPartitions) (rs : list Range) :
  addIndexes dims mp = Ok rs ->
  match mp with
  | MaterializedPartitions1D ranges => map erase1D rs = ranges
  | MaterializedPartitions2D ranges => map erase2D rs = ranges
  end.
Proof.
  destruct mp as [ranges | ranges]; cbn [addIndexes]; intros E.
  - eapply mapM_inverse; [| exact E].
    intros x y Hxy; now apply decode1D_erase in Hxy.
  - eapply mapM_inverse; [| exact E].
    intros x y Hxy; now apply decode2D_erase in Hxy.
Qed.

Lemma addIndexes_keeps_payload_witness :
  exists rs,
    addIndexes [date; region]
      (MaterializedPartitions2D
         [range2D "2022-01-01" "2022-01-02" [range1D "eu" "eu"];
          range2D "2022-01-03" "zz" []]) = Ok rs /\
    map erase2D rs =
      [range2D "2022-01-01" "2022-01-02" [range1D "eu" "eu"];
       range2D "2022-01-03" "zz" []].
Proof.
  destruct (addIndexes _ _) as [rs | e] eqn:E; [| vm_compute in E; discriminate E].
  exists rs; split; [reflexivity |].
  exact (addIndexes_keeps_payload _ _ rs E).
Defined.

(** X7: the shape of what the decoder returns.  A range decoded from a
    1D payload has value SUCCESS and no secondary list; a range decoded
    from a 2D payload has a secondary list whose members all have value
    SUCCESS and no list of their own, and its own value is SUCCESS or
    SUCCESS_MISSING, never MISSING. *)
Theorem addIndexes_shape (dims : list PartitionHealthDimension)
  (mp : MaterializedPartitions) (rs : list Range) :
  addIndexes dims mp = Ok rs ->
  Forall decodedShape rs /\
  match mp with
  | MaterializedPartitions1D _ => Forall flat rs
  | MaterializedPartitions2D _ => Forall (fun r => subranges r <> None) rs
  end.
Proof.
  destruct mp as [ranges | ranges]; cbn [addIndexes]; intros E.
  - assert (F : Forall flat rs).
    { eapply mapM_Forall; [| exact E].
      intros x y _ Hxy; now apply decode1D_erase in Hxy. }
    split; [| exact F].
    eapply Forall_impl; [| exact F].
    intros r [Hv Hs]; unfold decodedShape; now rewrite Hs.
  - split.
    + eapply mapM_Forall; [| exact E].
      intros x y _ Hxy; now apply decode2D_erase in Hxy.
    + apply Forall_forall.
      now apply (addIndexes_2D_subranges dims ranges).
Qed.

Lemma addIndexes_shape_witness :
  exists rs,
    addIndexes [date; region]
      (MaterializedPartitions2D
         [range2D "2022-01-01" "2022-01-02" [range1D "eu" "eu"];
          range2D "2022-01-03" "zz" []]) = Ok rs /\
    Forall decodedShape rs.
Proof.
  destruct (addIndexes _ _) as [rs | e] eqn:E; [| vm_compute in E; discriminate E].
  exists rs; split; [reflexivity |].
  exact (proj1 (addIndexes_shape _ _ rs E)).
Defined.

(** ** What the queries mean *)

Lemma find_exists {A : Type} (f : A -> bool) (l : list A) :
  (exists x, In x l /\ f x = true) <-> find f l <> None.
Proof.
  split.
  - intros (x & Hin & Hx) F; exact (eq_true_false_abs _ Hx (find_none f l F x Hin)).
  - destruct (find f l) as [x |] eqn:F; [| congruence].
    intros _; apply find_some in F; eauto.
Qed.

(** X8: for one dimension and a 1D payload the index always builds, and
    [stateForKey [k]] is SUCCESS exactly when some range of the payload has
    the position of [k] between the positions of its two boundary keys;
    otherwise it is MISSING.  Ranges may overlap or come in any order. *)
Theorem stateForKey_1D (isTs : PartitionHealthDimension -> bool)
  (d0 : PartitionHealthDimension) (ranges : list MaterializedPartitionRange1D)
  (loadKey : AssetKey) (k : string) :
  exists h,
    buildPartitionHealthData isTs
      (AssetNode [d0] (MaterializedPartitions1D ranges)) loadKey = Ok h /\
    (stateForKey h [k] = Ok SUCCESS <->
       exists range, In range ranges /\
         indexOf (partitionKeys d0) (r_start range)
         <= indexOf (partitionKeys d0) k
         <= indexOf (partitionKeys d0) (r_end range)) /\
    (stateForKey h [k] <> Ok SUCCESS -> stateForKey h [k] = Ok MISSING).
Proof.
  set (g := fun range =>
    {| start := {| key := r_start range;
                   idx := indexOf (partitionKeys d0) (r_start range) |};
       end_ := {| key := r_end range;
                  idx := indexOf (partitionKeys d0) (r_end range) |};
       value := SUCCESS; subranges := None |}).
  assert (Hadd : addIndexes [d0] (MaterializedPartitions1D ranges) = Ok (map g ranges)).
  { cbn [addIndexes]; apply mapM_ok; intros; now apply decode1D_at. }
  unfold buildPartitionHealthData;
    cbn [dims_of payload_of isRangeDataInverted range_dimensions].
  rewrite Hadd; cbn [bind].
  eexists; split; [reflexivity |].
  unfold stateForKey; cbn [env_isRangeDataInverted].
  erewrite stateForKeyRangeOrdering_single by reflexivity.
  cbn [env_ranges].
  set (p := indexOf (partitionKeys d0) k).
  pose proof (find_exists (contains (Some p)) (map g ranges)) as Hf.
  destruct (find (contains (Some p)) (map g ranges)) as [r |] eqn:F.
  - apply find_some in F as [Hin Hc].
    apply in_map_iff in Hin as (range & <- & Hin).
    cbn [subranges g]; split; [| congruence].
    split; [intros _ | reflexivity].
    exists range; split; [exact Hin |].
    apply contains_spec in Hc; exact Hc.
  - split; [| reflexivity].
    split; [discriminate |].
    intros (range & Hin & Hle); exfalso.
    apply (proj1 Hf); [| reflexivity].
    exists (g range); split; [now apply in_map |].
    apply contains_spec; exact Hle.
Qed.

Lemma decoded_full (e0 e1 : PartitionHealthDimension)
  (ranges : list MaterializedPartitionRange2D) (rs : list Range) :
  mapM (decode2D [e0; e1]) ranges = Ok rs ->
  Forall (fun r =>
    value r <> MISSING /\
    (value r = SUCCESS ->
     exists sr, subranges r = Some [sr] /\ idx (start sr) = 0 /\
       idx (end_ sr) = Z.of_nat (List.length (partitionKeys e1)) - 1)) rs.
Proof.
  apply mapM_Forall; intros x y _ Hxy.
  destruct (decode2D_two e0 e1 [] x)
    as (r & subs & E & Hs & Hsubs & _ & _ & Hv & Hor).
  rewrite E in Hxy; inversion Hxy; subst y; clear Hxy.
  split; [destruct Hor as [-> | ->]; discriminate |].
  intros Hval; apply Hv in Hval as (sub & Esub & H0 & H1).
  rewrite Esub in Hsubs; cbn [map] in Hsubs.
  eexists; split; [rewrite Hs, Hsubs; reflexivity |]; cbn; auto.
Qed.

Lemma primaryAxisIndex_internal (isTs : PartitionHealthDimension -> bool)
  (d1 : PartitionHealthDimension) (h : PartitionHealthData) :
  env_isRangeDataInverted h = isTs d1 ->
  (if env_isRangeDataInverted h then 1 - primaryAxisIndex isTs d1
   else primaryAxisIndex isTs d1) = 0.
Proof.
  intros ->; unfold primaryAxisIndex; destruct (isTs d1); reflexivity.
Qed.

Lemma build_axes (isTs : PartitionHealthDimension -> bool)
  (d0 d1 : PartitionHealthDimension) (mp : MaterializedPartitions)
  (loadKey : AssetKey) (h : PartitionHealthData) :
  buildPartitionHealthData isTs (AssetNode [d0; d1] mp) loadKey = Ok h ->
  env_isRangeDataInverted h = isTs d1 /\
  env_dimensions h = [primaryAxis isTs d0 d1; secondaryAxis isTs d0 d1] /\
  addIndexes [primaryAxis isTs d0 d1; secondaryAxis isTs d0 d1] mp
  = Ok (env_ranges h) /\
  forall kp ks,
    stateForKey h (declaredTuple isTs d1 kp ks)
    = stateForKeyRangeOrdering h [kp; ks].
Proof.
  intros Hb.
  destruct (build_two _ _ _ _ _ _ Hb) as (_ & _ & Hinv & Hdims & Hadd).
  rewrite Hdims in Hadd.
  unfold primaryAxis, secondaryAxis, declaredTuple, stateForKey.
  rewrite Hinv, Hdims; destruct (isTs d1); repeat split; auto.
Qed.

(** X9: the coverage reported for a key of the primary axis agrees with
    the point queries.  On an index built for two dimensions from a 2D
    payload, when [stateForSingleDimension] without selection is SUCCESS
    for a key of the primary axis, [stateForKey] is SUCCESS for that key
    paired with every key of the other dimension; when it is MISSING,
    [stateForKey] is MISSING for that key paired with any string. *)
Theorem primary_coverage_agrees_with_point_queries
  (isTs : PartitionHealthDimension -> bool)
  (mergedStates : list PartitionState -> PartitionState)
  (d0 d1 : PartitionHealthDimension) (ranges : list MaterializedPartitionRange2D)
  (loadKey : AssetKey) (h : PartitionHealthData) (kp : string) :
  buildPartitionHealthData isTs
    (AssetNode [d0; d1] (MaterializedPartitions2D ranges)) loadKey = Ok h ->
  (stateForSingleDimension h mergedStates (primaryAxisIndex isTs d1) kp None
   = Ok SUCCESS ->
   forall ks, In ks (partitionKeys (secondaryAxis isTs d0 d1)) ->
     stateForKey h (declaredTuple isTs d1 kp ks) = Ok SUCCESS) /\
  (stateForSingleDimension h mergedStates (primaryAxisIndex isTs d1) kp None
   = Ok MISSING ->
   forall ks, stateForKey h (declaredTuple isTs d1 kp ks) = Ok MISSING).
Proof.
  intros Hb.
  destruct (build_axes _ _ _ _ _ _ Hb) as (Hinv & Hdims & Hadd & Htuple).
  pose proof (decoded_full _ _ _ _ Hadd) as Hfull.
  rewrite Forall_forall in Hfull.
  rewrite (stateForSingleDimension_primary h mergedStates _ _ _ kp Hdims
             (primaryAxisIndex_internal isTs d1 h Hinv)).
  split; intros Hq ks.
  - intros Hks; rewrite Htuple, (stateForKeyRangeOrdering_pair _ _ _ _ _ Hdims).
    destruct (find _ (env_ranges h)) as [r |] eqn:F; [| discriminate].
    apply find_some in F as [Hin _].
    destruct (Hfull r Hin) as [_ Hspan].
    destruct Hspan as (sr & -> & Hs & He); [congruence |].
    cbn [existsb]; now rewrite (full_contains _ ks sr Hs He Hks).
  - rewrite Htuple, (stateForKeyRangeOrdering_pair _ _ _ _ _ Hdims).
    destruct (find _ (env_ranges h)) as [r |] eqn:F; [| reflexivity].
    apply find_some in F as [Hin _].
    destruct (Hfull r Hin) as [Hnm _]; congruence.
Qed.

Lemma primary_coverage_agrees_with_point_queries_witness :
  exists h,
    buildPartitionHealthData firstKeyDateLike
      (AssetNode [region; date]
         (MaterializedPartitions2D
            [range2D "2022-01-01" "2022-01-02" [range1D "eu" "us"]]))
      keyA = Ok h /\
    stateForKey h ["us"; "2022-01-02"] = Ok SUCCESS /\
    stateForKey h ["us"; "2022-01-03"] = Ok MISSING.
Proof.
  built h E.
  exists h; split; [reflexivity |].
  destruct (primary_coverage_agrees_with_point_queries firstKeyDateLike
              mergedStatesRule region date _ keyA h "2022-01-02" E) as [Hs _].
  destruct (primary_coverage_agrees_with_point_queries firstKeyDateLike
              mergedStatesRule region date _ keyA h "2022-01-03" E) as [_ Hm].
  pose proof E as E'; computed E'.
  split.
  - apply (Hs ltac:(rewrite <- E'; reflexivity) "us"); vm_compute; auto.
  - apply (Hm ltac:(rewrite <- E'; reflexivity) "us").
Defined.

(** X10: with a selection, the partial query on the primary axis is the
    merge of the point queries.  On an index built for two dimensions it
    never raises, and its answer is [mergedStates] applied to the answers
    of [stateForKey] for the key paired, in declared order, with each
    selected key in turn. *)
Theorem primary_selection_merges_point_queries
  (isTs : PartitionHealthDimension -> bool)
  (mergedStates : list PartitionState -> PartitionState)
  (d0 d1 : PartitionHealthDimension) (mp : MaterializedPartitions)
  (loadKey : AssetKey) (h : PartitionHealthData) (kp : string)
  (others : list string) :
  buildPartitionHealthData isTs (AssetNode [d0; d1] mp) loadKey = Ok h ->
  exists states,
    Forall2 (fun o st => stateForKey h (declaredTuple isTs d1 kp o) = Ok st)
            others states /\
    stateForSingleDimension h mergedStates (primaryAxisIndex isTs d1) kp
      (Some others) = Ok (mergedStates states).
Proof.
  intros Hb.
  destruct (build_axes _ _ _ _ _ _ Hb) as (Hinv & Hdims & _ & Htuple).
  rewrite (stateForSingleDimension_primary_selection h mergedStates _ _ _ kp
             others Hdims (primaryAxisIndex_internal isTs d1 h Hinv)).
  erewrite mapM_ok;
    [| intros o _; apply (stateForKeyRangeOrdering_pair h _ _ kp o Hdims)].
  cbn [bind]; eexists; split; [| reflexivity].
  induction others as [|o others IH]; cbn [map]; constructor; [| exact IH].
  now rewrite Htuple, (stateForKeyRangeOrdering_pair _ _ _ _ _ Hdims).
Qed.

Lemma primary_selection_merges_point_queries_witness :
  exists h,
    buildPartitionHealthData firstKeyDateLike
      (AssetNode [region; date]
         (MaterializedPartitions2D
            [range2D "2022-01-01" "2022-01-02" [range1D "eu" "eu"]]))
      keyA = Ok h /\
    stateForSingleDimension h mergedStatesRule 1 "2022-01-01" (Some ["eu"; "us"])
    = Ok SUCCESS_MISSING.
Proof.
  built h E.
  exists h; split; [reflexivity |].
  destruct (primary_selection_merges_point_queries firstKeyDateLike
              mergedStatesRule region date _ keyA h "2022-01-01" ["eu"; "us"] E)
    as (states & Hst & Hq).
  change (primaryAxisIndex firstKeyDateLike date) with 1 in Hq; rewrite Hq.
  pose proof E as E'; computed E'; subst h.
  inversion Hst as [|? st0 ? sts H0 Hst']; subst; clear Hst.
  inversion Hst' as [|? st1 ? sts' H1 Hnil]; subst; clear Hst'.
  inversion Hnil; subst; clear Hnil.
  vm_compute in H0, H1.
  injection H0 as <-; injection H1 as <-; reflexivity.
Defined.

Lemma queries_read_env (h h' : PartitionHealthData)
  (mergedStates : list PartitionState -> PartitionState) :
  env_dimensions h = env_dimensions h' ->
  env_ranges h = env_ranges h' ->
  (forall ks, stateForKeyRangeOrdering h ks = stateForKeyRangeOrdering h' ks) /\
  (forall d d' k others,
     (if env_isRangeDataInverted h then 1 - d else d)
     = (if env_isRangeDataInverted h' then 1 - d' else d') ->
     stateForSingleDimension h mergedStates d k others
     = stateForSingleDimension h' mergedStates d' k others).
Proof.
  intros Hd Hr.
  assert (Hk : forall ks,
            stateForKeyRangeOrdering h ks = stateForKeyRangeOrdering h' ks).
  { intros ks; unfold stateForKeyRangeOrdering; now rewrite Hd, Hr. }
  split; [exact Hk |].
  intros d d' k others Hi; unfold stateForSingleDimension.
  rewrite Hi, Hd, Hr, (Hk [k]).
  destruct others as [ks |]; [| reflexivity].
  replace (mapM (fun k0 => stateForKeyRangeOrdering h [k; k0]) ks)
    with (mapM (fun k0 => stateForKeyRangeOrdering h' [k; k0]) ks);
    [reflexivity |].
  induction ks as [|o ks IH]; [reflexivity |].
  cbn [mapM]; now rewrite IH, (Hk [k; o]).
Qed.

(** X11: the order in which the two dimensions are declared does not
    matter to the answers.  Take a time-like dimension [d1] and another one
    [d0] that is not, and one payload.  The index built with the
    declaration [d0; d1], which is inverted, and the index built with
    [d1; d0], which is not, answer alike once the caller's keys and
    dimension indexes are swapped accordingly; each exposes its own
    declared order in [dimensions]. *)
Theorem declaration_order_is_transparent
  (isTs : PartitionHealthDimension -> bool)
  (mergedStates : list PartitionState -> PartitionState)
  (d0 d1 : PartitionHealthDimension) (mp : MaterializedPartitions)
  (loadKey : AssetKey) (h h' : PartitionHealthData) :
  isTs d1 = true -> isTs d0 = false ->
  buildPartitionHealthData isTs (AssetNode [d0; d1] mp) loadKey = Ok h ->
  buildPartitionHealthData isTs (AssetNode [d1; d0] mp) loadKey = Ok h' ->
  (forall k0 k1, stateForKey h [k0; k1] = stateForKey h' [k1; k0]) /\
  (forall d k others,
     stateForSingleDimension h mergedStates d k others
     = stateForSingleDimension h' mergedStates (1 - d) k others) /\
  dimensions h = [d0; d1] /\ dimensions h' = [d1; d0].
Proof.
  intros T1 T0 Hb Hb'.
  destruct (build_two _ _ _ _ _ _ Hb) as (_ & Hdecl & Hinv & Hdims & Hadd).
  destruct (build_two _ _ _ _ _ _ Hb') as (_ & Hdecl' & Hinv' & Hdims' & Hadd').
  rewrite T1 in Hinv, Hdims; rewrite T0 in Hinv', Hdims'.
  assert (Hd : env_dimensions h = env_dimensions h') by congruence.
  assert (Hr : env_ranges h = env_ranges h').
  { rewrite Hdims in Hadd; rewrite Hdims' in Hadd'; congruence. }
  destruct (queries_read_env h h' mergedStates Hd Hr) as [Hk Hs].
  split; [| split; [| split; assumption]].
  - intros k0 k1; unfold stateForKey; rewrite Hinv, Hinv'; cbn [rev app].
    apply Hk.
  - intros d k others; apply Hs; now rewrite Hinv, Hinv'.
Qed.

Lemma declaration_order_is_transparent_witness :
  exists h h',
    buildPartitionHealthData firstKeyDateLike
      (AssetNode [region; date]
         (MaterializedPartitions2D
            [range2D "2022-01-01" "2022-01-02" [range1D "eu" "eu"]]))
      keyA = Ok h /\
    buildPartitionHealthData firstKeyDateLike
      (AssetNode [date; region]
         (MaterializedPartitions2D
            [range2D "2022-01-01" "2022-01-02" [range1D "eu" "eu"]]))
      keyA = Ok h' /\
    firstKeyDateLike date = true /\ firstKeyDateLike region = false /\
    stateForKey h ["eu"; "2022-01-02"] = stateForKey h' ["2022-01-02"; "eu"].
Proof.
  destruct (buildPartitionHealthData firstKeyDateLike
              (AssetNode [region; date] _) keyA) as [h | e] eqn:E;
    [| vm_compute in E; discriminate E].
  destruct (buildPartitionHealthData firstKeyDateLike
              (AssetNode [date; region] _) keyA) as [h' | e] eqn:E';
    [| vm_compute in E'; discriminate E'].
  exists h, h'; split; [reflexivity |]; split; [reflexivity |].
  split; [reflexivity |]; split; [reflexivity |].
  exact (proj1 (declaration_order_is_transparent firstKeyDateLike
                  mergedStatesRule region date _ keyA h h'
                  eq_refl eq_refl E E') "eu" "2022-01-02").
Defined.

Lemma startsKnown_spec (rs : list Range) :
  startsKnown rs = true ->
  Forall (fun r => 0 <= idx (start r)) rs /\
  forall r, In r rs ->
    match subranges r with
    | Some subs => Forall (fun sr => 0 <= idx (start sr)) subs
    | None => True
    end.
Proof.
  unfold startsKnown; rewrite forallb_forall; intros H; split.
  - apply Forall_forall; intros r Hr.
    specialize (H r Hr); apply andb_true_iff in H as [H _].
    now apply Z.leb_le.
  - intros r Hr; specialize (H r Hr); apply andb_true_iff in H as [_ H].
    destruct (subranges r) as [subs |]; [| exact I].
    apply Forall_forall; intros sr Hsr.
    rewrite forallb_forall in H; now apply Z.leb_le, H.
Qed.

(** X12: stale or renamed keys in the point query and on the primary
    axis.  On an index built for two dimensions from a 2D payload in which
    no range starts at a key unknown to its dimension, [stateForKey] is
    MISSING as soon as one of the two keys is not a key of its declared
    dimension, and [stateForSingleDimension] without selection is MISSING
    for every string that is not a key of the primary axis. *)
Theorem unknown_key_is_MISSING (isTs : PartitionHealthDimension -> bool)
  (mergedStates : list PartitionState -> PartitionState)
  (d0 d1 : PartitionHealthDimension) (ranges : list MaterializedPartitionRange2D)
  (loadKey : AssetKey) (h : PartitionHealthData) :
  buildPartitionHealthData isTs
    (AssetNode [d0; d1] (MaterializedPartitions2D ranges)) loadKey = Ok h ->
  startsKnown (env_ranges h) = true ->
  (forall k0 k1,
     ~ In k0 (partitionKeys d0) \/ ~ In k1 (partitionKeys d1) ->
     stateForKey h [k0; k1] = Ok MISSING) /\
  (forall kp, ~ In kp (partitionKeys (primaryAxis isTs d0 d1)) ->
     stateForSingleDimension h mergedStates (primaryAxisIndex isTs d1) kp None
     = Ok MISSING).
Proof.
  intros Hb Hknown.
  destruct (build_axes _ _ _ _ _ _ Hb) as (Hinv & Hdims & Hadd & Htuple).
  destruct (startsKnown_spec _ Hknown) as [Hprim Hsec].
  pose proof (addIndexes_2D_subranges _ _ _ Hadd) as Hsome.
  assert (Hsub : forall r, In r (env_ranges h) ->
            exists subs, subranges r = Some subs /\
                         Forall (fun sr => 0 <= idx (start sr)) subs).
  { intros r Hr; specialize (Hsec r Hr); specialize (Hsome r Hr).
    destruct (subranges r) as [subs |]; [eauto | congruence]. }
  split.
  - intros k0 k1 Hn.
    assert (E : stateForKey h [k0; k1] =
                stateForKeyRangeOrdering h (if isTs d1 then [k1; k0] else [k0; k1]))
      by (unfold stateForKey; rewrite Hinv; destruct (isTs d1); reflexivity).
    rewrite E; clear E.
    unfold primaryAxis, secondaryAxis in Hdims.
    destruct (isTs d1); destruct Hn as [Hn | Hn].
    + eapply stateForKeyRangeOrdering_unknown_secondary; eauto.
    + eapply stateForKeyRangeOrdering_unknown_primary; eauto.
    + eapply stateForKeyRangeOrdering_unknown_primary; eauto.
    + eapply stateForKeyRangeOrdering_unknown_secondary; eauto.
  - intros kp Hn.
    eapply stateForSingleDimension_unknown_primary; eauto.
    now apply primaryAxisIndex_internal.
Qed.

Lemma unknown_key_is_MISSING_witness :
  exists h,
    buildPartitionHealthData firstKeyDateLike
      (AssetNode [region; date]
         (MaterializedPartitions2D
            [range2D "2022-01-01" "2022-01-03" [range1D "eu" "us"]]))
      keyA = Ok h /\
    startsKnown (env_ranges h) = true /\
    stateForKey h ["asia"; "2022-01-02"] = Ok MISSING.
Proof.
  built h E.
  exists h; split; [reflexivity |].
  pose proof E as E'; computed E'.
  assert (Hk : startsKnown (env_ranges h) = true) by (now rewrite <- E').
  split; [exact Hk |].
  apply (proj1 (unknown_key_is_MISSING firstKeyDateLike mergedStatesRule
                  region date _ keyA h E Hk)).
  left; cbn; intuition discriminate.
Defined.

(** ** The hook between responses *)

Lemma render_settled (assetKeys : list AssetKey) (a : string) (s : HookState) :
  deps s = Some (missingKeyJSON (result s) assetKeys a, a) ->
  render assetKeys a s = (s, visible (result s) assetKeys).
Proof.
  intros Hd; unfold render; rewrite Hd; unfold deps_changed.
  rewrite opt_key_eqb_refl, String.eqb_refl; cbn [andb negb].
  rewrite app_nil_r, <- Hd; now destruct s.
Qed.

(** X13: evaluating the hook body again with the same keys and the same
    hint, nothing having arrived in between, changes nothing: no second
    fetch is issued, the state is the one the first evaluation left, and
    the same list is returned. *)
Theorem render_again_is_idle (assetKeys : list AssetKey)
  (assetLastMaterializedAt : string) (s : HookState) :
  render assetKeys assetLastMaterializedAt
    (fst (render assetKeys assetLastMaterializedAt s))
  = (fst (render assetKeys assetLastMaterializedAt s),
     snd (render assetKeys assetLastMaterializedAt s)).
Proof.
  rewrite render_settled; reflexivity.
Qed.

(** X14: a fetch that fails is not issued again by re-rendering.  After a
    render, let the [i]-th pending query be rejected, or let its response
    make [buildPartitionHealthData] raise: the stored list is untouched,
    and evaluating the body again with the same keys and hint issues no
    fetch and returns the same list as before, although the key is still
    missing. *)
Theorem failed_fetch_is_not_retried (isTs : PartitionHealthDimension -> bool)
  (assetKeys : list AssetKey) (assetLastMaterializedAt : string)
  (s s2 : HookState) (i : nat) :
  let s1 := fst (render assetKeys assetLastMaterializedAt s) in
  s2 = reject i s1 \/
  (exists f data e,
     nth_error (pending s1) i = Some f /\
     buildPartitionHealthData isTs data (loadKey f) = Throw e /\
     s2 = resolve isTs i data s1) ->
  result s2 = result s /\
  pending s2 = drop_nth i (pending s1) /\
  render assetKeys assetLastMaterializedAt s2
  = (s2, snd (render assetKeys assetLastMaterializedAt s)).
Proof.
  intros s1 H.
  assert (E : s2 = {| result := result s1; deps := deps s1;
                      pending := drop_nth i (pending s1) |}).
  { destruct H as [-> | (f & data & e & Hn & Hb & ->)]; [reflexivity |].
    unfold resolve; now rewrite Hn, Hb. }
  rewrite E; cbn [result pending]; repeat split.
  apply render_settled; reflexivity.
Qed.

Lemma failed_fetch_is_not_retried_witness :
  pending (fst (render [keyA] "h1" (reject 0 (fst (render [keyA] "h1" init))))) = [] /\
  missingKeyJSON (result (reject 0 (fst (render [keyA] "h1" init)))) [keyA] "h1"
  = Some keyA.
Proof.
  split; [| reflexivity].
  destruct (failed_fetch_is_not_retried firstKeyDateLike [keyA] "h1" init
              (reject 0 (fst (render [keyA] "h1" init))) 0 (or_introl eq_refl))
    as (_ & _ & Hr).
  now rewrite Hr.
Defined.

(** X15: what a render may fetch.  A render issues at most one fetch; the
    fetch it issues is for a key of the requested list that has no stored
    entry tagged with the current hint, and it carries that hint.  When
    every requested key has such an entry, nothing is issued. *)
Theorem render_fetches_only_stale_requested (assetKeys : list AssetKey)
  (assetLastMaterializedAt : string) (s : HookState) :
  let s1 := fst (render assetKeys assetLastMaterializedAt s) in
  (pending s1 = pending s \/
   exists k,
     pending s1 = (pending s ++
                   [{| loadKey := k; hint := assetLastMaterializedAt |}])%list /\
     In k assetKeys /\
     existsb (matches k assetLastMaterializedAt) (result s) = false) /\
  ((forall k, In k assetKeys ->
      existsb (matches k assetLastMaterializedAt) (result s) = true) ->
   pending s1 = pending s).
Proof.
  cbv zeta; unfold render; cbn [fst pending].
  destruct (missingKeyJSON (result s) assetKeys assetLastMaterializedAt)
    as [k |] eqn:M.
  - unfold missingKeyJSON in M; apply find_some in M as [Hin Hk].
    apply negb_true_iff in Hk.
    split.
    + destruct (deps_changed _ _ _); [right; eauto | left; apply app_nil_r].
    + intros Hall; rewrite (Hall k Hin) in Hk; discriminate.
  - split; [left |]; intros;
      (destruct (deps_changed _ _ _); apply app_nil_r).
Qed.

(** ** The stored list over time *)

Lemma upsert_keeps_keys (l : PartitionHealthData) (f : Fetch) (res : list Entry)
  (k : AssetKey) :
  assetKey l = loadKey f ->
  In k (map entryKey res) -> In k (map entryKey (upsert l f res)).
Proof.
  intros Hl Hin; unfold upsert; rewrite map_app, in_app_iff.
  apply in_map_iff in Hin as (r & <- & Hr).
  destruct (sameKey (entryKey r) (loadKey f)) eqn:E.
  - right; left; apply sameKey_spec in E; unfold entryKey in *; cbn [loaded].
    congruence.
  - left; apply in_map, filter_In; split; [exact Hr |].
    unfold entryKey in E; now rewrite E.
Qed.

Lemma step_keeps_keys (isTs : PartitionHealthDimension -> bool)
  (s s' : HookState) (k : AssetKey) :
  step isTs s s' -> In k (storedKeys s) -> In k (storedKeys s').
Proof.
  unfold storedKeys.
  intros [assetKeys a s0 | i data s0 Hi | i s0 Hi] Hin; cbn [result]; auto.
  unfold resolve.
  destruct (nth_error (pending s0) i) as [f |]; [| assumption].
  destruct (buildPartitionHealthData isTs data (loadKey f)) as [l | e] eqn:B;
    cbn [result]; [| assumption].
  apply upsert_keeps_keys; [now apply build_assetKey in B | assumption].
Qed.

(** X16: entries are replaced, never evicted.  Once an entry is stored
    for a key, every later state of the hook, whatever renders, responses
    and failures lead to it, and whichever keys are requested meanwhile,
    still stores an entry for that key. *)
Theorem stored_keys_are_never_dropped (isTs : PartitionHealthDimension -> bool)
  (s s' : HookState) (k : AssetKey) :
  steps isTs s s' -> In k (storedKeys s) -> In k (storedKeys s').
Proof.
  induction 1 as [| s s' s'' Hstep _ IH]; intros Hin; [assumption |].
  apply IH; exact (step_keeps_keys isTs s s' k Hstep Hin).
Qed.

Lemma stored_keys_are_never_dropped_witness :
  In keyA
    (storedKeys
       (fst (render [keyB] "h2"
          (resolve firstKeyDateLike 0
             (AssetNode [region] (fullPayload [region]))
             (fst (render [keyA] "h1" init)))))).
Proof.
  apply (stored_keys_are_never_dropped firstKeyDateLike
           (resolve firstKeyDateLike 0
              (AssetNode [region] (fullPayload [region]))
              (fst (render [keyA] "h1" init)))).
  - eapply steps_more; [apply step_render | apply steps_none].
  - left; reflexivity.
Defined.

(** X17: only whole indexes are stored.  In every state the hook reaches,
    each stored entry holds an index that [buildPartitionHealthData]
    returned for some response and for the entry's own key. *)
Theorem stored_entries_are_built (isTs : PartitionHealthDimension -> bool)
  (s : HookState) :
  reachable isTs s ->
  forall e, In e (result s) ->
    exists data, buildPartitionHealthData isTs data (entryKey e) = Ok (loaded e).
Proof.
  induction 1 as [| s s' _ IH Hstep]; [intros e [] |].
  destruct Hstep as [assetKeys a s0 | i data s0 Hi | i s0 Hi]; cbn [result]; auto.
  unfold resolve.
  destruct (nth_error (pending s0) i) as [f |]; [| assumption].
  destruct (buildPartitionHealthData isTs data (loadKey f)) as [l | e0] eqn:B;
    cbn [result]; [| assumption].
  intros e He; unfold upsert in He; apply in_app_iff in He as [He | [<- | []]].
  - apply filter_In in He as [He _]; now apply IH.
  - exists data; unfold entryKey; cbn [loaded].
    now rewrite (build_assetKey _ _ _ _ B).
Qed.

Lemma stored_entries_are_built_witness :
  reachable firstKeyDateLike
    (resolve firstKeyDateLike 0 (AssetNode [region] (fullPayload [region]))
       (fst (render [keyA] "h1" init))) /\
  exists l data,
    result (resolve firstKeyDateLike 0 (AssetNode [region] (fullPayload [region]))
              (fst (render [keyA] "h1" init)))
    = [{| loaded := l; fetchedAt := "h1" |}] /\
    buildPartitionHealthData firstKeyDateLike data keyA = Ok l.
Proof.
  assert (R : reachable firstKeyDateLike
    (resolve firstKeyDateLike 0 (AssetNode [region] (fullPayload [region]))
       (fst (render [keyA] "h1" init)))).
  { eapply reachable_step; [eapply reachable_step; [apply reachable_init |] |].
    - apply step_render.
    - apply step_resolve; cbn; lia. }
  split; [exact R |].
  pose proof (stored_entries_are_built firstKeyDateLike _ R) as H.
  remember (result _) as res eqn:Eres in H |- *.
  vm_compute in Eres; subst res.
  eexists; destruct (H _ (or_introl eq_refl)) as (data & Hd).
  exists data; split; [reflexivity | exact Hd].
Defined.

(** ** The backlog *)

Lemma entriesFor_In (isTs : PartitionHealthDimension -> bool)
  (respond : AssetKey -> AssetNodeOrError) (a : string) (ks : list AssetKey)
  (e : Entry) :
  In e (entriesFor isTs respond a ks) ->
  exists k l, In k ks /\
    buildPartitionHealthData isTs (respond k) k = Ok l /\
    e = {| loaded := l; fetchedAt := a |}.
Proof.
  unfold entriesFor; rewrite in_flat_map; intros (k & Hk & He).
  unfold entryFor in He.
  destruct (buildPartitionHealthData isTs (respond k) k) as [l | x] eqn:B;
    [| contradiction].
  destruct He as [<- | []]; eauto.
Qed.

Lemma entriesFor_key (isTs : PartitionHealthDimension -> bool)
  (respond : AssetKey -> AssetNodeOrError) (a : string) (ks : list AssetKey)
  (e : Entry) :
  In e (entriesFor isTs respond a ks) -> In (entryKey e) ks /\ fetchedAt e = a.
Proof.
  intros He; apply entriesFor_In in He as (k & l & Hk & B & ->).
  unfold entryKey; cbn; now rewrite (build_assetKey _ _ _ _ B).
Qed.

Lemma entriesFor_matches (isTs : PartitionHealthDimension -> bool)
  (respond : AssetKey -> AssetNodeOrError) (a : string) (ks : list AssetKey)
  (k : AssetKey) (l : PartitionHealthData) :
  In k ks -> buildPartitionHealthData isTs (respond k) k = Ok l ->
  existsb (matches k a) (entriesFor isTs respond a ks) = true.
Proof.
  intros Hk B; apply existsb_exists.
  exists {| loaded := l; fetchedAt := a |}; split.
  - unfold entriesFor; apply in_flat_map; exists k; split; [exact Hk |].
    unfold entryFor; rewrite B; now left.
  - unfold matches; cbn.
    now rewrite (build_assetKey _ _ _ _ B), sameKey_refl, String.eqb_refl.
Qed.

Lemma entriesFor_no_match (isTs : PartitionHealthDimension -> bool)
  (respond : AssetKey -> AssetNodeOrError) (a : string) (ks : list AssetKey)
  (x : AssetKey) :
  ~ In x ks -> existsb (matches x a) (entriesFor isTs respond a ks) = false.
Proof.
  intros Hx; destruct (existsb _ _) eqn:Ex; [exfalso | reflexivity].
  apply existsb_exists in Ex as (e & He & Hm).
  apply entriesFor_key in He as [Hk _].
  unfold matches in Hm; apply andb_true_iff in Hm as [Hm _].
  apply sameKey_spec in Hm; unfold entryKey in Hk; congruence.
Qed.

Lemma entriesFor_keys (isTs : PartitionHealthDimension -> bool)
  (respond : AssetKey -> AssetNodeOrError) (a : string) (ks : list AssetKey) :
  (forall k, In k ks ->
     exists l, buildPartitionHealthData isTs (respond k) k = Ok l) ->
  map entryKey (entriesFor isTs respond a ks) = ks.
Proof.
  induction ks as [|k ks IH]; intros H; [reflexivity |].
  destruct (H k (or_introl eq_refl)) as (l & B).
  unfold entriesFor; cbn [flat_map]; unfold entryFor at 1; rewrite B.
  cbn [app map]; unfold entryKey at 1; cbn [loaded].
  rewrite (build_assetKey _ _ _ _ B); f_equal.
  apply IH; intros; apply H; now right.
Qed.

Lemma find_skips {A : Type} (p : A -> bool) (l1 : list A) (x : A) (l2 : list A) :
  (forall k, In k l1 -> p k = false) -> p x = true ->
  find p (l1 ++ x :: l2) = Some x.
Proof.
  intros H1 Hx; induction l1 as [|y l1 IH]; cbn; [now rewrite Hx |].
  rewrite (H1 y (or_introl eq_refl)); apply IH; intros; apply H1; now right.
Qed.

Lemma find_all_false {A : Type} (p : A -> bool) (l : list A) :
  (forall k, In k l -> p k = false) -> find p l = None.
Proof.
  intros H; induction l as [|y l IH]; cbn; [reflexivity |].
  rewrite (H y (or_introl eq_refl)); apply IH; intros; apply H; now right.
Qed.

Lemma filter_all {A : Type} (p : A -> bool) (l : list A) :
  (forall x, In x l -> p x = true) -> filter p l = l.
Proof.
  intros H; induction l as [|y l IH]; cbn; [reflexivity |].
  rewrite (H y (or_introl eq_refl)); f_equal; apply IH; intros; apply H; now right.
Qed.

Lemma round_takes_next (isTs : PartitionHealthDimension -> bool)
  (respond : AssetKey -> AssetNodeOrError) (a : string)
  (done : list AssetKey) (x : AssetKey) (todo : list AssetKey) (s : HookState)
  (l : PartitionHealthData) :
  NoDup (done ++ x :: todo) ->
  (forall k, In k done ->
     exists l, buildPartitionHealthData isTs (respond k) k = Ok l) ->
  buildPartitionHealthData isTs (respond x) x = Ok l ->
  result s = entriesFor isTs respond a done ->
  pending s = [] ->
  deps s <> Some (Some x, a) ->
  round isTs respond (done ++ x :: todo) a s
  = {| result := entriesFor isTs respond a (done ++ [x]);
       deps := Some (Some x, a);
       pending := [] |}.
Proof.
  intros Hnd Hdone Bx Hres Hpend Hdeps.
  assert (Hx : ~ In x done).
  { intros Hin; apply NoDup_remove_2 in Hnd; apply Hnd, in_or_app; now left. }
  assert (Hmiss : missingKeyJSON (result s) (done ++ x :: todo) a = Some x).
  { unfold missingKeyJSON; rewrite Hres; apply find_skips.
    - intros k Hk; destruct (Hdone k Hk) as (lk & Bk).
      now rewrite (entriesFor_matches isTs respond a done k lk Hk Bk).
    - now rewrite entriesFor_no_match. }
  unfold round, render; cbn [fst].
  rewrite Hmiss, (deps_changed_fresh _ _ _ Hdeps), Hpend, Hres; cbn [app pending].
  rewrite (resolve_first isTs (respond x) _ _
             {| loadKey := x; hint := a |} [] l Bx).
  f_equal.
  unfold upsert; cbn [loadKey hint].
  rewrite filter_all.
  - unfold entriesFor; rewrite flat_map_app; cbn [flat_map].
    unfold entryFor at 3; rewrite Bx; now rewrite app_nil_r.
  - intros e He; apply entriesFor_key in He as [Hk _].
    apply negb_true_iff, sameKey_neq; unfold entryKey in Hk; congruence.
Qed.

Lemma rounds_work_off (isTs : PartitionHealthDimension -> bool)
  (respond : AssetKey -> AssetNodeOrError) (a : string) (todo : list AssetKey) :
  forall (done : list AssetKey) (s : HookState),
    NoDup (done ++ todo) ->
    (forall k, In k (done ++ todo) ->
       exists l, buildPartitionHealthData isTs (respond k) k = Ok l) ->
    result s = entriesFor isTs respond a done ->
    pending s = [] ->
    (forall x, In x todo -> deps s <> Some (Some x, a)) ->
    result (rounds isTs respond (done ++ todo) a (List.length todo) s)
    = entriesFor isTs respond a (done ++ todo) /\
    pending (rounds isTs respond (done ++ todo) a (List.length todo) s) = [].
Proof.
  induction todo as [|x todo IH]; intros done s Hnd Hb Hres Hpend Hdeps.
  - cbn [List.length rounds]; rewrite app_nil_r; auto.
  - cbn [List.length rounds].
    destruct (Hb x) as (l & Bx); [apply in_or_app; right; now left |].
    rewrite (round_takes_next isTs respond a done x todo s l Hnd); auto.
    + replace (done ++ x :: todo)%list with ((done ++ [x]) ++ todo)%list
        by (now rewrite <- app_assoc).
      apply IH; cbn [result pending deps]; auto.
      * now rewrite <- app_assoc.
      * intros k Hk; apply Hb; now rewrite <- app_assoc in Hk.
      * intros y Hy E; inversion E; subst y.
        apply NoDup_remove_2 in Hnd; apply Hnd, in_or_app; now right.
    + intros k Hk; apply Hb, in_or_app; now left.
    + apply Hdeps; now left.
Qed.

(** X18: the backlog is worked off one key per round, in the order of the
    list.  For any list of distinct keys whose responses all build, from
    the first render and with one hint, as many rounds as there are keys
    (each a render followed by the response to the one pending query)
    store exactly one entry per key, in the order of the list, each tagged
    with the hint and holding the index built from that key's response;
    nothing is pending then, and one more render issues nothing and
    returns the whole stored list. *)
Theorem backlog_is_worked_off_in_order (isTs : PartitionHealthDimension -> bool)
  (respond : AssetKey -> AssetNodeOrError) (assetKeys : list AssetKey)
  (assetLastMaterializedAt : string) :
  NoDup assetKeys ->
  (forall k, In k assetKeys ->
     exists l, buildPartitionHealthData isTs (respond k) k = Ok l) ->
  let s := rounds isTs respond assetKeys assetLastMaterializedAt
             (List.length assetKeys) init in
  result s = entriesFor isTs respond assetLastMaterializedAt assetKeys /\
  map entryKey (result s) = assetKeys /\
  Forall (fun e => fetchedAt e = assetLastMaterializedAt) (result s) /\
  pending s = [] /\
  pending (fst (render assetKeys assetLastMaterializedAt s)) = [] /\
  snd (render assetKeys assetLastMaterializedAt s) = result s.
Proof.
  intros Hnd Hb s.
  destruct (rounds_work_off isTs respond assetLastMaterializedAt assetKeys [] init)
    as [Hres Hpend]; cbn [app]; auto; try discriminate.
  cbn [app] in Hres, Hpend; fold s in Hres, Hpend.
  split; [exact Hres |]; split; [rewrite Hres; now apply entriesFor_keys |].
  split; [rewrite Hres; apply Forall_forall; intros e He;
          now apply entriesFor_key in He |].
  split; [exact Hpend |].
  assert (Hmiss : missingKeyJSON (result s) assetKeys assetLastMaterializedAt = None).
  { unfold missingKeyJSON; apply find_all_false; intros k Hk.
    destruct (Hb k Hk) as (l & B).
    now rewrite Hres, (entriesFor_matches _ _ _ _ k l Hk B). }
  unfold render; cbn [fst snd pending]; rewrite Hmiss, Hpend; split.
  - now destruct (deps_changed _ _ _).
  - unfold visible; apply filter_all; intros e He.
    rewrite Hres in He; apply entriesFor_key in He as [Hk _].
    apply existsb_exists; exists (entryKey e); split; [exact Hk |].
    apply sameKey_refl.
Qed.

Lemma backlog_is_worked_off_in_order_witness :
  NoDup [keyA; keyB] /\
  map entryKey
    (result (rounds firstKeyDateLike
               (fun _ => AssetNode [region] (fullPayload [region]))
               [keyA; keyB] "h1" 2 init))
  = [keyA; keyB].
Proof.
  assert (Hnd : NoDup [keyA; keyB]).
  { repeat constructor; cbn; intuition discriminate. }
  split; [exact Hnd |].
  refine (proj1 (proj2 (backlog_is_worked_off_in_order firstKeyDateLike
            (fun _ => AssetNode [region] (fullPayload [region]))
            [keyA; keyB] "h1" Hnd _))).
  intros k _; eexists; reflexivity.
Defined.

(** ** More on the secondary axis and on empty indexes *)

Lemma secondaryAxisIndex_internal (isTs : PartitionHealthDimension -> bool)
  (d1 : PartitionHealthDimension) (h : PartitionHealthData) :
  env_isRangeDataInverted h = isTs d1 ->
  (if env_isRangeDataInverted h then 1 - secondaryAxisIndex isTs d1
   else secondaryAxisIndex isTs d1) = 1.
Proof.
  intros ->; unfold secondaryAxisIndex; destruct (isTs d1); reflexivity.
Qed.

Lemma matching_unknown (h : PartitionHealthData) :
  startsKnown (env_ranges h) = true -> matching h (-1) = [].
Proof.
  intros Hk; destruct (startsKnown_spec _ Hk) as [_ Hsec].
  apply filter_nil_none; intros r Hr; unfold coversSecondary.
  specialize (Hsec r Hr).
  destruct (subranges r) as [subs |]; [| reflexivity].
  now rewrite find_existsb, minus_one_not_contained.
Qed.

(** X19: stale or renamed keys on the secondary axis.  On an index built
    for two dimensions from a 2D payload in which no range starts at an
    unknown key, [stateForSingleDimension] for a string that is not a key
    of the secondary axis is MISSING, without selection as soon as there is
    one primary range, and with any selection that is not empty. *)
Theorem unknown_key_on_secondary_axis (isTs : PartitionHealthDimension -> bool)
  (mergedStates : list PartitionState -> PartitionState)
  (d0 d1 : PartitionHealthDimension) (ranges : list MaterializedPartitionRange2D)
  (loadKey : AssetKey) (h : PartitionHealthData) (dimensionKey : string) :
  buildPartitionHealthData isTs
    (AssetNode [d0; d1] (MaterializedPartitions2D ranges)) loadKey = Ok h ->
  startsKnown (env_ranges h) = true ->
  ~ In dimensionKey (partitionKeys (secondaryAxis isTs d0 d1)) ->
  (ranges <> [] ->
   stateForSingleDimension h mergedStates (secondaryAxisIndex isTs d1)
     dimensionKey None = Ok MISSING) /\
  (forall others, others <> [] ->
   stateForSingleDimension h mergedStates (secondaryAxisIndex isTs d1)
     dimensionKey (Some others) = Ok MISSING).
Proof.
  intros Hb Hknown Hn.
  destruct (build_axes _ _ _ _ _ _ Hb) as (Hinv & Hdims & Hadd & _).
  pose proof (addIndexes_2D_subranges _ _ _ Hadd) as Hsub.
  pose proof (secondaryAxisIndex_internal isTs d1 h Hinv) as Hi.
  split.
  - intros Hne.
    rewrite (stateForSingleDimension_secondary h mergedStates _ _ _
               dimensionKey None Hdims Hsub Hi).
    rewrite (indexOf_notIn _ _ Hn), (matching_unknown h Hknown); cbv zeta.
    destruct (addIndexes_raises_iff
                [primaryAxis isTs d0 d1; secondaryAxis isTs d0 d1]
                (MaterializedPartitions2D ranges)) as [Hok _].
    destruct Hok as (rs & E & Hlen).
    { destruct ranges; cbn [dimensionsRead List.length];
        [lia | destruct (existsb _ _); lia]. }
    rewrite Hadd in E; inversion E; subst rs.
    cbn [payloadLength] in Hlen.
    destruct (env_ranges h); [| reflexivity].
    destruct ranges; [congruence | discriminate].
  - intros others Hne.
    rewrite (stateForSingleDimension_secondary h mergedStates _ _ _
               dimensionKey (Some others) Hdims Hsub Hi).
    rewrite (indexOf_notIn _ _ Hn), (matching_unknown h Hknown); cbv zeta.
    destruct others as [|o others]; [congruence | reflexivity].
Qed.

Lemma unknown_key_on_secondary_axis_witness :
  exists h,
    buildPartitionHealthData firstKeyDateLike
      (AssetNode [date; region]
         (MaterializedPartitions2D
            [range2D "2022-01-01" "2022-01-03" [range1D "eu" "us"]]))
      keyA = Ok h /\
    startsKnown (env_ranges h) = true /\
    ~ In "asia" (partitionKeys region) /\
    stateForSingleDimension h mergedStatesRule 1 "asia" None = Ok MISSING.
Proof.
  built h E.
  exists h; split; [reflexivity |].
  pose proof E as E'; computed E'.
  assert (Hk : startsKnown (env_ranges h) = true) by (now rewrite <- E').
  assert (Hn : ~ In "asia" (partitionKeys region))
    by (cbn; intuition discriminate).
  split; [exact Hk |]; split; [exact Hn |].
  apply (proj1 (unknown_key_on_secondary_axis firstKeyDateLike mergedStatesRule
                  date region _ keyA h "asia" E Hk Hn)).
  discriminate.
Defined.

(** X20: what the answer on the secondary axis says about single
    partitions.  On an index built for two dimensions from a 2D payload,
    without selection: when [stateForSingleDimension] is MISSING for a key
    of the secondary axis, [stateForKey] is MISSING for that key paired
    with any key of the primary axis; when it is SUCCESS, [stateForKey] is
    SUCCESS for exactly those pairs whose primary key lies in some primary
    range, and MISSING for the others. *)
Theorem secondary_coverage_agrees_with_point_queries
  (isTs : PartitionHealthDimension -> bool)
  (mergedStates : list PartitionState -> PartitionState)
  (d0 d1 : PartitionHealthDimension) (ranges : list MaterializedPartitionRange2D)
  (loadKey : AssetKey) (h : PartitionHealthData) (ks : string) :
  buildPartitionHealthData isTs
    (AssetNode [d0; d1] (MaterializedPartitions2D ranges)) loadKey = Ok h ->
  (stateForSingleDimension h mergedStates (secondaryAxisIndex isTs d1) ks None
   = Ok MISSING ->
   forall kp, stateForKey h (declaredTuple isTs d1 kp ks) = Ok MISSING) /\
  (stateForSingleDimension h mergedStates (secondaryAxisIndex isTs d1) ks None
   = Ok SUCCESS ->
   forall kp,
     (stateForKey h (declaredTuple isTs d1 kp ks) = Ok SUCCESS <->
        exists r, In r (env_ranges h) /\
          contains (Some (indexOf (partitionKeys (primaryAxis isTs d0 d1)) kp)) r
          = true) /\
     (stateForKey h (declaredTuple isTs d1 kp ks) <> Ok SUCCESS ->
      stateForKey h (declaredTuple isTs d1 kp ks) = Ok MISSING)).
Proof.
  intros Hb.
  destruct (build_axes _ _ _ _ _ _ Hb) as (Hinv & Hdims & Hadd & Htuple).
  pose proof (addIndexes_2D_subranges _ _ _ Hadd) as Hsub.
  rewrite (stateForSingleDimension_secondary h mergedStates _ _ _ ks None
             Hdims Hsub (secondaryAxisIndex_internal isTs d1 h Hinv)).
  cbv zeta.
  set (s := indexOf (partitionKeys (secondaryAxis isTs d0 d1)) ks).
  assert (Hpoint : forall kp,
    stateForKey h (declaredTuple isTs d1 kp ks) =
    Ok match find (contains (Some (indexOf
                (partitionKeys (primaryAxis isTs d0 d1)) kp))) (env_ranges h) with
       | None => MISSING
       | Some r => if coversSecondary s r then SUCCESS else MISSING
       end).
  { intros kp; rewrite Htuple, (stateForKeyRangeOrdering_pair _ _ _ _ _ Hdims).
    destruct (find _ (env_ranges h)) as [r |] eqn:F; [| reflexivity].
    apply find_some in F as [Hin _]; specialize (Hsub r Hin).
    unfold coversSecondary; destruct (subranges r); [reflexivity | congruence]. }
  split; intros Hq kp; rewrite Hpoint.
  - destruct (find _ (env_ranges h)) as [r |] eqn:F; [| reflexivity].
    apply find_some in F as [Hin _].
    assert (HM : matching h s = []).
    { destruct (_ =? _)%nat; [discriminate |].
      destruct (0 <? List.length (matching h s))%nat eqn:P; [discriminate |].
      now apply length_pos_nil. }
    now rewrite (proj1 (filter_nil_none _ _) HM r Hin).
  - assert (Hall : forall r, In r (env_ranges h) -> coversSecondary s r = true).
    { apply filter_length_all.
      destruct (Nat.eqb_spec (List.length (matching h s))
                  (List.length (env_ranges h))) as [E | N]; [exact E |].
      destruct (0 <? _)%nat; discriminate. }
    pose proof (find_exists
      (contains (Some (indexOf (partitionKeys (primaryAxis isTs d0 d1)) kp)))
      (env_ranges h)) as Hf.
    destruct (find _ (env_ranges h)) as [r |] eqn:F.
    + pose proof (find_some _ _ F) as [Hin Hc].
      rewrite (Hall r Hin); split; [| congruence].
      split; [intros _; eauto | reflexivity].
    + split; [| reflexivity].
      split; [discriminate |].
      intros Hex; apply Hf in Hex; congruence.
Qed.

Lemma secondary_coverage_agrees_with_point_queries_witness :
  exists h,
    buildPartitionHealthData firstKeyDateLike
      (AssetNode [date; region]
         (MaterializedPartitions2D
            [range2D "2022-01-01" "2022-01-02" [range1D "eu" "eu"]]))
      keyA = Ok h /\
    stateForSingleDimension h mergedStatesRule 1 "us" None = Ok MISSING /\
    stateForKey h ["2022-01-01"; "us"] = Ok MISSING.
Proof.
  built h E.
  exists h; split; [reflexivity |].
  destruct (secondary_coverage_agrees_with_point_queries firstKeyDateLike
              mergedStatesRule date region _ keyA h "us" E) as [Hm _].
  pose proof E as E'; computed E'.
  assert (Hq : stateForSingleDimension h mergedStatesRule 1 "us" None = Ok MISSING)
    by (now rewrite <- E').
  split; [exact Hq |].
  exact (Hm Hq "2022-01-01").
Defined.

Lemma addIndexes_no_dimension (mp : MaterializedPartitions) (rs : list Range) :
  addIndexes [] mp = Ok rs -> rs = [].
Proof.
  destruct mp as [[|x l] | [|x l]]; cbn [addIndexes mapM]; intros E.
  - now inversion E.
  - discriminate E.
  - now inversion E.
  - rewrite decode2D_no_dimension in E; discriminate E.
Qed.

(** X21: an index without dimensions, as built for a response that is
    not an asset node or for an asset that declares no partition
    dimension, has no ranges; it answers MISSING to the empty tuple and
    raises a TypeError for every other point query and for every partial
    query on dimension 0 or 1 without selection. *)
Theorem index_without_dimensions (isTs : PartitionHealthDimension -> bool)
  (mergedStates : list PartitionState -> PartitionState)
  (data : AssetNodeOrError) (loadKey : AssetKey) (h : PartitionHealthData) :
  buildPartitionHealthData isTs data loadKey = Ok h ->
  dims_of data = [] ->
  env_ranges h = [] /\
  stateForKey h [] = Ok MISSING /\
  (forall k ks, stateForKey h (k :: ks) = Throw TypeError) /\
  (forall k,
     stateForSingleDimension h mergedStates 0 k None = Throw TypeError /\
     stateForSingleDimension h mergedStates 1 k None = Throw TypeError).
Proof.
  intros Hb Hd.
  unfold buildPartitionHealthData in Hb; rewrite Hd in Hb.
  cbn [range_dimensions isRangeDataInverted] in Hb.
  destruct (addIndexes [] (payload_of data)) as [rs | e] eqn:Hadd;
    cbn [bind] in Hb; [| discriminate].
  apply addIndexes_no_dimension in Hadd; subst rs.
  inversion Hb; subst h; clear Hb.
  split; [reflexivity |]; split; [reflexivity |]; split.
  - intros k ks; unfold stateForKey; cbn [env_isRangeDataInverted].
    apply stateForKeyRangeOrdering_arity; cbn; lia.
  - intros k; split; reflexivity.
Qed.

Lemma index_without_dimensions_witness :
  exists h,
    buildPartitionHealthData firstKeyDateLike AssetNotFoundError keyA = Ok h /\
    dims_of AssetNotFoundError = [] /\
    stateForKey h ["eu"] = Throw TypeError /\
    stateForSingleDimension h mergedStatesRule 0 "eu" None = Throw TypeError.
Proof.
  built h E.
  exists h; split; [reflexivity |]; split; [reflexivity |].
  destruct (index_without_dimensions firstKeyDateLike mergedStatesRule
              AssetNotFoundError keyA h E eq_refl) as (_ & _ & Hk & Hs).
  split; [apply Hk | apply Hs].
Defined.
